(** * maro-google-calendar: token lifecycle and event creation

    A shallow embedding of
    - [src/services/auth.service.ts]   (class [AuthService]),
    - [src/utils/error-handler.ts]     ([CalendarError], [ErrorCodes],
                                        [createErrorResult]),
    - [src/utils/date-parser.ts]       ([parseDuration], [calculateEndTime], ...),
    - [src/services/calendar.service.ts] (the request body of [createEvent]),
    followed by the properties of the design document, each settled
    against the embedding.

    Conventions.  Epoch milliseconds are [Z].  A JavaScript value that may
    be [undefined] or [null] is an [option]; truthiness ([a || b], [!a]) is
    written out: the empty string and the number 0 are falsy.  An [async]
    method is a program of type [prog A] whose [Await] nodes are the
    [await] expressions of the source. *)

From Stdlib Require Import ZArith List String Ascii Bool Lia.
Import ListNotations.
Local Open Scope string_scope.
Local Open Scope Z_scope.

(* ================================================================== *)
(** ** Errors ([utils/error-handler.ts]) *)

(** The members of [ErrorCodes]. *)
Inductive ErrorCode : Type :=
| AUTH_NOT_CONFIGURED | AUTH_TOKEN_EXPIRED | AUTH_TOKEN_INVALID
| AUTH_REFRESH_FAILED
| INVALID_INPUT | INVALID_DATE | INVALID_DURATION | MISSING_REQUIRED_FIELD
| EVENT_NOT_FOUND | CALENDAR_NOT_FOUND | RATE_LIMIT_EXCEEDED | API_ERROR
| UNKNOWN_ERROR | FILE_NOT_FOUND | PARSE_ERROR.

Definition ErrorCode_name (c : ErrorCode) : string :=
  match c with
  | AUTH_NOT_CONFIGURED => "AUTH_NOT_CONFIGURED"
  | AUTH_TOKEN_EXPIRED => "AUTH_TOKEN_EXPIRED"
  | AUTH_TOKEN_INVALID => "AUTH_TOKEN_INVALID"
  | AUTH_REFRESH_FAILED => "AUTH_REFRESH_FAILED"
  | INVALID_INPUT => "INVALID_INPUT"
  | INVALID_DATE => "INVALID_DATE"
  | INVALID_DURATION => "INVALID_DURATION"
  | MISSING_REQUIRED_FIELD => "MISSING_REQUIRED_FIELD"
  | EVENT_NOT_FOUND => "EVENT_NOT_FOUND"
  | CALENDAR_NOT_FOUND => "CALENDAR_NOT_FOUND"
  | RATE_LIMIT_EXCEEDED => "RATE_LIMIT_EXCEEDED"
  | API_ERROR => "API_ERROR"
  | UNKNOWN_ERROR => "UNKNOWN_ERROR"
  | FILE_NOT_FOUND => "FILE_NOT_FOUND"
  | PARSE_ERROR => "PARSE_ERROR"
  end.

(** [NodeJS.ErrnoException.code] of a failed file-system call. *)
Inductive errno : Type := ENOENT | EACCES | EPERM | EIO.

(** The exceptions that travel through the service.  [CalendarError] is the
    class of the source, the only one that carries an [ErrorCode];
    [ErrnoException] comes from [node:fs/promises], [SyntaxError] from
    [JSON.parse], [RangeError] from [Date.prototype.toISOString],
    [TypeError] from a property access on [null], [PlainError] is
    [new Error(message)], and [ProviderError] is whatever the identity
    provider client rejects with (an [Error] with an optional numeric
    [code] and an optional [errors] array). *)
Inductive error : Type :=
| CalendarError (message : string) (code : ErrorCode)
| ErrnoException (code : errno)
| SyntaxError
| RangeError
| TypeError
| PlainError (message : string)
| ProviderError (code : option Z) (errors : list string) (message : string).

(** [error instanceof CalendarError ? error.code : undefined] *)
Definition error_code (e : error) : option ErrorCode :=
  match e with
  | CalendarError _ c => Some c
  | _ => None
  end.

(** [(error as NodeJS.ErrnoException).code === 'ENOENT'] *)
Definition is_ENOENT (e : error) : bool :=
  match e with
  | ErrnoException ENOENT => true
  | _ => false
  end.

(** [error.message]; the texts of the system errors are abbreviated. *)
Definition error_message (e : error) : string :=
  match e with
  | CalendarError m _ => m
  | ErrnoException ENOENT => "ENOENT: no such file or directory"
  | ErrnoException EACCES => "EACCES: permission denied"
  | ErrnoException EPERM => "EPERM: operation not permitted"
  | ErrnoException EIO => "EIO: i/o error"
  | SyntaxError => "Unexpected token in JSON"
  | RangeError => "Invalid time value"
  | TypeError => "Cannot read properties of null"
  | PlainError m => m
  | ProviderError _ _ m => m
  end.

(** The failing shape of [ToolResult]: [{ success: false, error }]. *)
Definition tagged (c : ErrorCode) (m : string) : string :=
  "[" ++ ErrorCode_name c ++ "] " ++ m.

(** [createErrorResult(error)] for a thrown [Error]; the result is the
    [error] string of the [ToolResult]. *)
Definition createErrorResult (e : error) : string :=
  match e with
  | CalendarError m c => tagged c m
  | ProviderError code errs m =>
      match code with
      | Some 401 => tagged AUTH_TOKEN_INVALID "Authentication failed. Please re-authenticate."
      | Some 403 => tagged RATE_LIMIT_EXCEEDED "Rate limit exceeded or insufficient permissions."
      | Some 404 => tagged EVENT_NOT_FOUND "Resource not found."
      | _ =>
          match errs with
          | first :: _ => tagged API_ERROR first
          | [] => tagged UNKNOWN_ERROR m
          end
      end
  | other => tagged UNKNOWN_ERROR (error_message other)
  end.

(* ================================================================== *)
(** ** Data ([types/calendar.types.ts]) *)

(** One of the [installed] / [web] sections of [credentials.json]; only
    the two fields the service reads are kept. *)
Record ClientConfig : Type := mkClientConfig {
  client_id : string;
  client_secret : string
}.

Record OAuthCredentials : Type := mkOAuthCredentials {
  installed : option ClientConfig;
  web : option ClientConfig
}.

Record OAuthTokens : Type := mkOAuthTokens {
  access_token : string;
  refresh_token : option string;
  scope : string;
  token_type : string;
  expiry_date : Z
}.

(** [Credentials] of google-auth-library: what the identity provider
    answers to a code exchange or a refresh; every field may be absent
    or [null]. *)
Record Credentials : Type := mkCredentials {
  cred_access_token : option string;
  cred_refresh_token : option string;
  cred_scope : option string;
  cred_token_type : option string;
  cred_expiry_date : option Z
}.

(** The [OAuth2Client] object as far as the service configures it: the
    constructor arguments, the credentials given by [setCredentials] and
    the number of ['tokens'] listeners registered with [on]. *)
Record OAuth2Client : Type := mkOAuth2Client {
  oa_client_id : string;
  oa_client_secret : string;
  oa_redirect_uri : string;
  oa_credentials : option OAuthTokens;
  oa_token_listeners : nat
}.

Definition setCredentials (c : OAuth2Client) (t : OAuthTokens) : OAuth2Client :=
  mkOAuth2Client (oa_client_id c) (oa_client_secret c) (oa_redirect_uri c)
                 (Some t) (oa_token_listeners c).

(** [revokeCredentials()] empties the credentials of the client object
    before it sends the revocation request. *)
Definition dropCredentials (c : OAuth2Client) : OAuth2Client :=
  mkOAuth2Client (oa_client_id c) (oa_client_secret c) (oa_redirect_uri c)
                 None (oa_token_listeners c).

(** [on('tokens', listener)]: one more listener on the client.  The
    listener of the source hands the tokens to [handleTokenRefresh] and
    drops the promise.  The library emits the event when a refresh or a
    code exchange has succeeded, and the task the listener starts then
    runs beside the calling method.  That task is not embedded: the
    programs below are the methods as their callers await them.  On a
    service without a token record the task returns at once; on a
    service with a record it saves the record updated with the answer,
    so it writes the token file once more and can change the record
    after the calling method has failed. *)
Definition on_tokens (c : OAuth2Client) : OAuth2Client :=
  mkOAuth2Client (oa_client_id c) (oa_client_secret c) (oa_redirect_uri c)
                 (oa_credentials c) (S (oa_token_listeners c)).

(** The private fields of [class AuthService]. *)
Record AuthService : Type := mkAuthService {
  oauth2Client : option OAuth2Client;
  credentials : option OAuthCredentials;
  tokens : option OAuthTokens;
  initialized : bool
}.

(** [new AuthService()] *)
Definition fresh_service : AuthService :=
  mkAuthService None None None false.

Definition set_oauth2Client (v : option OAuth2Client) (s : AuthService) :=
  mkAuthService v (credentials s) (tokens s) (initialized s).
Definition set_credentials (v : option OAuthCredentials) (s : AuthService) :=
  mkAuthService (oauth2Client s) v (tokens s) (initialized s).
Definition set_tokens (v : option OAuthTokens) (s : AuthService) :=
  mkAuthService (oauth2Client s) (credentials s) v (initialized s).
Definition set_initialized (v : bool) (s : AuthService) :=
  mkAuthService (oauth2Client s) (credentials s) (tokens s) v.

(** The character [U+0022], for messages that quote their argument. *)
Definition dquote : string := String (ascii_of_nat 34) EmptyString.

(** JavaScript [a || b] on strings and numbers. *)
Definition truthy_string (o : option string) : option string :=
  match o with
  | Some "" => None
  | other => other
  end.

Definition truthy_number (o : option Z) : option Z :=
  match o with
  | Some 0 => None
  | other => other
  end.

Definition or_string (o : option string) (d : string) : string :=
  match truthy_string o with Some v => v | None => d end.

Definition or_number (o : option Z) (d : Z) : Z :=
  match truthy_number o with Some v => v | None => d end.

(* ================================================================== *)
(** ** The environment: file system, clock and identity provider *)

(** The text of a file as [JSON.parse] sees it: not JSON at all, or a
    JSON document read at the type the source casts it to ([None] is the
    document [null]). *)
Inductive content (A : Type) : Type :=
| Garbled
| Document (v : option A).
Arguments Garbled {A}.
Arguments Document {A} v.

Inductive file (A : Type) : Type :=
| Absent                      (* readFile rejects with ENOENT *)
| Unreadable                  (* readFile rejects with EACCES *)
| Present (c : content A).
Arguments Absent {A}.
Arguments Unreadable {A}.
Arguments Present {A} c.

(** The asynchronous calls the service makes; each returns a promise. *)
Inductive call : Type :=
| ReadCredentialsFile                 (* readFile(CREDENTIALS_PATH, 'utf-8') *)
| ReadTokensFile                      (* readFile(TOKENS_PATH, 'utf-8') *)
| AccessDataDir                       (* access(dataDir) *)
| MkdirDataDir                        (* mkdir(dataDir, {recursive: true}) *)
| WriteTokensFile (t : OAuthTokens)   (* writeFile(TOKENS_PATH, JSON.stringify(t)) *)
| UnlinkTokensFile                    (* unlink(TOKENS_PATH) *)
| RefreshAccessToken                  (* oauth2Client.refreshAccessToken() *)
| GetToken (code : string)            (* oauth2Client.getToken(code) *)
| RevokeCredentials.                  (* oauth2Client.revokeCredentials() *)

(** What the promise of a call resolves to. *)
Definition answer (c : call) : Type :=
  match c with
  | ReadCredentialsFile => content OAuthCredentials
  | ReadTokensFile => content OAuthTokens
  | RefreshAccessToken => Credentials
  | GetToken _ => Credentials
  | _ => unit
  end.

(** The refresh requests made on the provider client, the calls that go
    to the identity provider at all (building the authorization URL is
    local and is not one of them), and the calls that change the
    persisted token store. *)
Definition is_refresh (c : call) : bool :=
  match c with RefreshAccessToken => true | _ => false end.

Definition is_provider_call (c : call) : bool :=
  match c with
  | RefreshAccessToken | GetToken _ | RevokeCredentials => true
  | _ => false
  end.

Definition is_store_write (c : call) : bool :=
  match c with
  | MkdirDataDir | WriteTokensFile _ | UnlinkTokensFile => true
  | _ => false
  end.

Record World : Type := mkWorld {
  credentials_json : file OAuthCredentials;   (* config/credentials.json *)
  tokens_json : file OAuthTokens;             (* data/tokens.json *)
  data_dir : bool;                            (* does data/ exist *)
  mkdir_fault : option errno;                 (* mkdir rejects with it *)
  write_fault : option errno;                 (* writeFile rejects with it *)
  unlink_fault : option errno;                (* unlink rejects with it *)
  clock : Z;                                  (* Date.now() *)
  idp_refresh : error + Credentials;          (* outcome of a refresh *)
  idp_token : string -> error + Credentials;  (* outcome of a code exchange *)
  idp_auth_url : OAuth2Client -> string;      (* oauth2Client.generateAuthUrl(...) *)
  log : list call                             (* calls issued, latest first *)
}.

Definition set_tokens_json (f : file OAuthTokens) (w : World) : World :=
  mkWorld (credentials_json w) f (data_dir w) (mkdir_fault w) (write_fault w)
          (unlink_fault w) (clock w) (idp_refresh w) (idp_token w)
          (idp_auth_url w) (log w).

Definition set_data_dir (b : bool) (w : World) : World :=
  mkWorld (credentials_json w) (tokens_json w) b (mkdir_fault w) (write_fault w)
          (unlink_fault w) (clock w) (idp_refresh w) (idp_token w)
          (idp_auth_url w) (log w).


Definition set_unlink_fault (e : option errno) (w : World) : World :=
  mkWorld (credentials_json w) (tokens_json w) (data_dir w) (mkdir_fault w)
          (write_fault w) e (clock w) (idp_refresh w) (idp_token w)
          (idp_auth_url w) (log w).

Definition set_credentials_json (f : file OAuthCredentials) (w : World) : World :=
  mkWorld f (tokens_json w) (data_dir w) (mkdir_fault w) (write_fault w)
          (unlink_fault w) (clock w) (idp_refresh w) (idp_token w)
          (idp_auth_url w) (log w).

(** Issuing a call records it. *)
Definition issue (c : call) (w : World) : World :=
  mkWorld (credentials_json w) (tokens_json w) (data_dir w) (mkdir_fault w)
          (write_fault w) (unlink_fault w) (clock w) (idp_refresh w)
          (idp_token w) (idp_auth_url w) (c :: log w).

Definition read_file {A} (f : file A) : error + content A :=
  match f with
  | Absent => inl (ErrnoException ENOENT)
  | Unreadable => inl (ErrnoException EACCES)
  | Present c => inr c
  end.

(** The settlement of a pending call: the promise rejects ([inl]) or
    resolves ([inr]), and the file system may change.  A write is in
    the file when its promise resolves; when two writes are in flight
    together the file system decides which of them lasts, and that is
    not embedded. *)
Definition settle (c : call) (w : World) : (error + answer c) * World :=
  match c return (error + answer c) * World with
  | ReadCredentialsFile => (read_file (credentials_json w), w)
  | ReadTokensFile => (read_file (tokens_json w), w)
  | AccessDataDir =>
      if data_dir w then (inr tt, w) else (inl (ErrnoException ENOENT), w)
  | MkdirDataDir =>
      match mkdir_fault w with
      | Some e => (inl (ErrnoException e), w)
      | None => (inr tt, set_data_dir true w)
      end
  | WriteTokensFile t =>
      match write_fault w with
      | Some e => (inl (ErrnoException e), w)
      | None => (inr tt, set_tokens_json (Present (Document (Some t))) w)
      end
  | UnlinkTokensFile =>
      match unlink_fault w with
      | Some e => (inl (ErrnoException e), w)
      | None =>
          match tokens_json w with
          | Absent => (inl (ErrnoException ENOENT), w)
          | _ => (inr tt, set_tokens_json Absent w)
          end
      end
  | RefreshAccessToken => (idp_refresh w, w)
  | GetToken code => (idp_token w code, w)
  | RevokeCredentials => (inr tt, w)
  end.

Definition count_calls (p : call -> bool) (w : World) : nat :=
  List.length (List.filter p (log w)).

(* ================================================================== *)
(** ** Programs *)

(** A method body.  [Get]/[Put] read and assign the fields of [this];
    [Now] is [Date.now()]; [AuthUrl] is the local, synchronous
    [oauth2Client.generateAuthUrl(...)]; [Fire] starts a call and drops
    its promise; [Await] starts a call and suspends until it settles. *)
Inductive prog (A : Type) : Type :=
| Ret (a : A)
| Throw (e : error)
| Get (k : AuthService -> prog A)
| Put (s : AuthService) (k : prog A)
| Now (k : Z -> prog A)
| AuthUrl (c : OAuth2Client) (k : string -> prog A)
| Fire (c : call) (k : prog A)
| Await (c : call) (k : error + answer c -> prog A).
Arguments Ret {A} a.
Arguments Throw {A} e.
Arguments Get {A} k.
Arguments Put {A} s k.
Arguments Now {A} k.
Arguments AuthUrl {A} c k.
Arguments Fire {A} c k.
Arguments Await {A} c k.

Fixpoint bind {A B} (p : prog A) (f : A -> prog B) : prog B :=
  match p with
  | Ret a => f a
  | Throw e => Throw e
  | Get k => Get (fun s => bind (k s) f)
  | Put s k => Put s (bind k f)
  | Now k => Now (fun t => bind (k t) f)
  | AuthUrl c k => AuthUrl c (fun u => bind (k u) f)
  | Fire c k => Fire c (bind k f)
  | Await c k => Await c (fun r => bind (k r) f)
  end.

(** [try { p } catch (e) { h e }] *)
Fixpoint try_catch {A} (p : prog A) (h : error -> prog A) : prog A :=
  match p with
  | Ret a => Ret a
  | Throw e => h e
  | Get k => Get (fun s => try_catch (k s) h)
  | Put s k => Put s (try_catch k h)
  | Now k => Now (fun t => try_catch (k t) h)
  | AuthUrl c k => AuthUrl c (fun u => try_catch (k u) h)
  | Fire c k => Fire c (try_catch k h)
  | Await c k => Await c (fun r => try_catch (k r) h)
  end.

Declare Scope prog_scope.
Delimit Scope prog_scope with prog.
Notation "x <- p ;; q" := (bind p (fun x => q))
  (at level 61, p at next level, right associativity) : prog_scope.
Notation "p ;; q" := (bind p (fun _ => q))
  (at level 61, right associativity) : prog_scope.
Local Open Scope prog_scope.

Definition this : prog AuthService := Get (fun s => Ret s).
Definition assign (f : AuthService -> AuthService) : prog unit :=
  Get (fun s => Put (f s) (Ret tt)).
Definition now : prog Z := Now (fun t => Ret t).

(** [await c]: a rejected promise throws at the [await]. *)
Definition await (c : call) : prog (answer c) :=
  Await c (fun r => match r with inl e => Throw e | inr a => Ret a end).

(** [JSON.parse(content)] *)
Definition JSON_parse {A} (c : content A) : prog (option A) :=
  match c with
  | Garbled => Throw SyntaxError
  | Document v => Ret v
  end.

(** Running a program alone, every call settling as soon as it is
    issued. *)
Fixpoint run {A} (p : prog A) (s : AuthService) (w : World)
  : (error + A) * AuthService * World :=
  match p with
  | Ret a => (inr a, s, w)
  | Throw e => (inl e, s, w)
  | Get k => run (k s) s w
  | Put s' k => run k s' w
  | Now k => run (k (clock w)) s w
  | AuthUrl c k => run (k (idp_auth_url w c)) s w
  | Fire c k => run k s (snd (settle c (issue c w)))
  | Await c k =>
      let (r, w') := settle c (issue c w) in run (k r) s w'
  end.

(** *** Interleaved execution

    Several calls of asynchronous methods share the service object.  A
    call runs without interruption up to its next [await], where it has
    issued the awaited request and is suspended; it is resumed when the
    request settles. *)
Inductive task (A : Type) : Type :=
| Suspended (c : call) (k : error + answer c -> prog A)
| Finished (r : error + A).
Arguments Suspended {A} c k.
Arguments Finished {A} r.

Fixpoint advance {A} (p : prog A) (s : AuthService) (w : World)
  : task A * AuthService * World :=
  match p with
  | Ret a => (Finished (inr a), s, w)
  | Throw e => (Finished (inl e), s, w)
  | Get k => advance (k s) s w
  | Put s' k => advance k s' w
  | Now k => advance (k (clock w)) s w
  | AuthUrl c k => advance (k (idp_auth_url w c)) s w
  | Fire c k => advance k s (snd (settle c (issue c w)))
  | Await c k => (Suspended c k, s, issue c w)
  end.

(** The awaited request of a suspended task settles and the task runs on
    to its next suspension. *)
Definition resume {A} (t : task A) (s : AuthService) (w : World)
  : task A * AuthService * World :=
  match t with
  | Finished r => (Finished r, s, w)
  | Suspended c k => let (r, w') := settle c w in advance (k r) s w'
  end.

(** Iterated [resume]. *)
Fixpoint resume_n {A} (n : nat) (x : task A * AuthService * World)
  : task A * AuthService * World :=
  match n with
  | O => x
  | S n' => let '(t, s, w) := x in resume_n n' (resume t s w)
  end.

(** The task is suspended on the call [c]. *)
Definition awaits {A} (c : call) (t : task A) : Prop :=
  match t with
  | Suspended c' _ => c' = c
  | Finished _ => False
  end.

(** [n] calls of the same method started back to back, as by
    [Promise.all([m(), ..., m()])]: each runs up to its first suspension
    before the next one starts.  The tasks are listed latest first. *)
Fixpoint start_all {A} (n : nat) (p : prog A) (s : AuthService) (w : World)
  : list (task A) * AuthService * World :=
  match n with
  | O => ([], s, w)
  | S n' =>
      let '(ts, s1, w1) := start_all n' p s w in
      let '(t, s2, w2) := advance p s1 w1 in
      (t :: ts, s2, w2)
  end.

(* ================================================================== *)
(** ** [class AuthService] ([services/auth.service.ts]) *)

Module AuthSvc.

Definition SCOPES : list string := ["https://www.googleapis.com/auth/calendar"].

Definition loadCredentials : prog unit :=
  try_catch
    (content <- await ReadCredentialsFile ;;
     v <- JSON_parse content ;;
     assign (set_credentials v))
    (fun e =>
       if is_ENOENT e
       then Throw (CalendarError
                     "OAuth credentials not found. Place credentials.json in config/"
                     AUTH_NOT_CONFIGURED)
       else Throw (CalendarError "Failed to load credentials" PARSE_ERROR)).

Definition loadTokens : prog unit :=
  try_catch
    (content <- await ReadTokensFile ;;
     v <- JSON_parse content ;;
     assign (set_tokens v))
    (fun e =>
       if is_ENOENT e
       then assign (set_tokens None)
       else Throw (CalendarError "Failed to load tokens" PARSE_ERROR)).

Definition saveTokens (t : OAuthTokens) : prog unit :=
  try_catch (await AccessDataDir) (fun _ => await MkdirDataDir) ;;
  await (WriteTokensFile t) ;;
  assign (set_tokens (Some t)).

(** [this.credentials.installed || this.credentials.web] *)
Definition clientConfig (c : OAuthCredentials) : option ClientConfig :=
  match installed c with
  | Some cfg => Some cfg
  | None => web c
  end.

Definition createOAuth2Client : prog unit :=
  s <- this ;;
  match credentials s with
  | None => Throw (CalendarError "Credentials not loaded" AUTH_NOT_CONFIGURED)
  | Some c =>
      match clientConfig c with
      | None => Throw (CalendarError "Invalid credentials format" AUTH_NOT_CONFIGURED)
      | Some cfg =>
          let client :=
            mkOAuth2Client (client_id cfg) (client_secret cfg)
                           "urn:ietf:wg:oauth:2.0:oob" None 0 in
          let client :=
            match tokens s with
            | Some t => setCredentials client t
            | None => client
            end in
          assign (set_oauth2Client (Some (on_tokens client)))
      end
  end.

Definition initialize : prog unit :=
  s <- this ;;
  if initialized s then Ret tt
  else
    loadCredentials ;;
    loadTokens ;;
    createOAuth2Client ;;
    assign (set_initialized true).

(** The record [updated] of [handleTokenRefresh], built from the stored
    record [t] and the provider's answer [r]. *)
Definition updated (t : OAuthTokens) (r : Credentials) : OAuthTokens :=
  let updated :=
    mkOAuthTokens (or_string (cred_access_token r) (access_token t))
                  (refresh_token t)
                  (scope t)
                  (token_type t)
                  (or_number (cred_expiry_date r) (expiry_date t)) in
  match truthy_string (cred_refresh_token r) with
  | Some rt =>
      mkOAuthTokens (access_token updated) (Some rt) (scope updated)
                    (token_type updated) (expiry_date updated)
  | None => updated
  end.

Definition handleTokenRefresh (r : Credentials) : prog unit :=
  s <- this ;;
  match tokens s with
  | None => Ret tt
  | Some t => saveTokens (updated t r)
  end.

Definition isAuthenticated (s : AuthService) : bool :=
  match tokens s, oauth2Client s with
  | Some _, Some _ => true
  | _, _ => false
  end.

Definition buffer : Z := 5 * 60 * 1000.

Definition needsRefresh (date_now : Z) (s : AuthService) : bool :=
  match tokens s with
  | None => true
  | Some t =>
      if expiry_date t =? 0 then true
      else date_now >=? expiry_date t - buffer
  end.

Definition generateAuthUrl : prog string :=
  s <- this ;;
  (match oauth2Client s with
   | Some _ => Ret tt
   | None =>
       match credentials s with
       | None => Throw (CalendarError "Credentials not loaded" AUTH_NOT_CONFIGURED)
       | Some _ => createOAuth2Client
       end
   end) ;;
  s <- this ;;
  match oauth2Client s with
  | Some c => AuthUrl c (fun u => Ret u)
  | None => Throw TypeError
  end.

(** The declared result is [OAuth2Client]; the value returned is the
    field [this.oauth2Client] as it is at the [return]. *)
Definition getClient : prog (option OAuth2Client) :=
  s <- this ;;
  (if initialized s then Ret tt else initialize) ;;
  s <- this ;;
  match oauth2Client s with
  | None => Throw (CalendarError "OAuth2 client not initialized" AUTH_NOT_CONFIGURED)
  | Some _ =>
      (if isAuthenticated s then Ret tt
       else
         authUrl <- generateAuthUrl ;;
         Throw (CalendarError ("Not authenticated. Visit: " ++ authUrl)
                              AUTH_TOKEN_INVALID)) ;;
      date_now <- now ;;
      s <- this ;;
      (if needsRefresh date_now s
       then
         r <- await RefreshAccessToken ;;
         handleTokenRefresh r
       else Ret tt) ;;
      s <- this ;;
      Ret (oauth2Client s)
  end.

(** The rest of [getClient] from [await refreshAccessToken()] on: what a
    suspended caller does with the settlement [x] of its request. *)
Definition after_refresh (x : error + Credentials)
  : prog (option OAuth2Client) :=
  (r <- match x with inl e => Throw e | inr a => Ret a end ;;
   handleTokenRefresh r) ;;
  s <- this ;;
  Ret (oauth2Client s).

(** The record [oauthTokens] of [exchangeCode], built from the access
    token [at_] of the provider's answer [r] at time [date_now]. *)
Definition oauthTokens (at_ : string) (r : Credentials) (date_now : Z)
  : OAuthTokens :=
  mkOAuthTokens at_
                (cred_refresh_token r)
                (or_string (cred_scope r) (String.concat " " SCOPES))
                (or_string (cred_token_type r) "Bearer")
                (or_number (cred_expiry_date r) (date_now + 3600000)).

Definition exchangeCode (code : string) : prog unit :=
  s <- this ;;
  match oauth2Client s with
  | None => Throw (CalendarError "OAuth2 client not initialized" AUTH_NOT_CONFIGURED)
  | Some _ =>
      r <- await (GetToken code) ;;
      match truthy_string (cred_access_token r) with
      | None => Throw (PlainError "No access token received")
      | Some at_ =>
          date_now <- now ;;
          saveTokens (oauthTokens at_ r date_now) ;;
          s <- this ;;
          match oauth2Client s with
          | Some c =>
              assign (set_oauth2Client
                        (Some (setCredentials c (oauthTokens at_ r date_now))))
          | None => Throw TypeError
          end
      end
  end.

(** The result of [getStatus]; [expiresAt] is the instant whose ISO
    rendering the source stores. *)
Record Status : Type := mkStatus {
  st_isAuthenticated : bool;
  st_needsRefresh : bool;
  st_expiresAt : option Z;
  st_authUrl : option string
}.

(** [new Date(ms).toISOString()] throws a [RangeError] outside the range
    of valid dates. *)
Definition toISOString (ms : Z) : prog Z :=
  if Z.abs ms <=? 8640000000000000 then Ret ms else Throw RangeError.

Definition getStatus : prog Status :=
  s <- this ;;
  date_now <- now ;;
  let isAuth := isAuthenticated s in
  let needs := needsRefresh date_now s in
  expiresAt <-
    match tokens s with
    | Some t =>
        if expiry_date t =? 0 then Ret None
        else iso <- toISOString (expiry_date t) ;; Ret (Some iso)
    | None => Ret None
    end ;;
  authUrl <-
    (if isAuth then Ret None
     else try_catch (u <- generateAuthUrl ;; Ret (Some u)) (fun _ => Ret None)) ;;
  Ret (mkStatus isAuth needs expiresAt authUrl).

Definition clearTokens : prog unit :=
  assign (set_tokens None) ;;
  s <- this ;;
  (match oauth2Client s with
   | Some c =>
       Fire RevokeCredentials
            (assign (set_oauth2Client (Some (dropCredentials c))))
   | None => Ret tt
   end) ;;
  try_catch (await UnlinkTokensFile) (fun _ => Ret tt).

End AuthSvc.

(** How a run of [saveTokens] ends. *)
Inductive saved (t : OAuthTokens) (s : AuthService) (w : World)
  : (error + unit) * AuthService * World -> Prop :=
| saved_ok w' :
    write_fault w = None ->
    tokens_json w' = Present (Document (Some t)) ->
    log w' = WriteTokensFile t :: tl (log w') ->
    saved t s w (inr tt, set_tokens (Some t) s, w')
| saved_failed c w' :
    write_fault w = Some c \/ (data_dir w = false /\ mkdir_fault w = Some c) ->
    tokens_json w' = tokens_json w ->
    saved t s w (inl (ErrnoException c), s, w').

(* ================================================================== *)
(** ** Regular expressions

    The duration patterns of [utils/date-parser.ts] are JavaScript regular
    expressions; they are kept as syntax and run by a backtracking matcher
    with the priorities of the language: quantifiers are greedy,
    alternatives are tried left to right, the leftmost start wins. *)

Module Regex.

Inductive regex : Type :=
| Eps
| Chr (f : ascii -> bool)
| Seq (a b : regex)
| Alt (a b : regex)
| Star (a : regex)
| Group (i : nat) (a : regex)
| Bol
| Eol.

Definition Plus (a : regex) : regex := Seq a (Star a).
Definition Opt (a : regex) : regex := Alt a Eps.

Definition captures : Type := list (nat * string).

Fixpoint capture (i : nat) (cs : captures) : option string :=
  match cs with
  | [] => None
  | (j, v) :: rest => if Nat.eqb i j then Some v else capture i rest
  end.

(** [m r total s cs k]: match [r] at the front of [s], a suffix of an
    input of length [total], then hand the rest to [k]. *)
Fixpoint m (r : regex) (total : nat) (s : string) (cs : captures)
           (k : string -> captures -> option captures) {struct r}
  : option captures :=
  match r with
  | Eps => k s cs
  | Chr f =>
      match s with
      | String c s' => if f c then k s' cs else None
      | EmptyString => None
      end
  | Seq a b => m a total s cs (fun s' cs' => m b total s' cs' k)
  | Alt a b =>
      match m a total s cs k with
      | Some res => Some res
      | None => m b total s cs k
      end
  | Star a =>
      (fix star (fuel : nat) (s : string) (cs : captures) {struct fuel}
         : option captures :=
         match fuel with
         | O => k s cs
         | S fuel' =>
             match m a total s cs
                     (fun s' cs' =>
                        if Nat.ltb (String.length s') (String.length s)
                        then star fuel' s' cs' else None) with
             | Some res => Some res
             | None => k s cs
             end
         end) (String.length s) s cs
  | Group i a =>
      m a total s cs
        (fun s' cs' =>
           k s' ((i, substring 0 (String.length s - String.length s') s) :: cs'))
  | Bol => if Nat.eqb (String.length s) total then k s cs else None
  | Eol => match s with EmptyString => k s cs | _ => None end
  end.

Fixpoint exec_from (r : regex) (total : nat) (s : string) : option captures :=
  match m r total s [] (fun _ cs => Some cs) with
  | Some cs => Some cs
  | None =>
      match s with
      | EmptyString => None
      | String _ s' => exec_from r total s'
      end
  end.

(** [input.match(r)] for a pattern without the [g] flag. *)
Definition exec (r : regex) (input : string) : option captures :=
  exec_from r (String.length input) input.

Definition code (c : ascii) : nat := nat_of_ascii c.

(** [\d] *)
Definition digit (c : ascii) : bool :=
  (Nat.leb 48 (code c) && Nat.leb (code c) 57)%bool.

(** [\s], on the ASCII range *)
Definition space (c : ascii) : bool :=
  ((Nat.leb 9 (code c) && Nat.leb (code c) 13) || Nat.eqb (code c) 32)%bool.

Definition to_upper (c : ascii) : ascii :=
  if (Nat.leb 97 (code c) && Nat.leb (code c) 122)%bool
  then ascii_of_nat (code c - 32) else c.

(** A literal character under the [i] flag. *)
Definition ci (p : ascii) : regex :=
  Chr (fun c => Ascii.eqb (to_upper c) (to_upper p)).

Fixpoint lit (s : string) : regex :=
  match s with
  | EmptyString => Eps
  | String c EmptyString => ci c
  | String c s' => Seq (ci c) (lit s')
  end.

End Regex.

(* ================================================================== *)
(** ** [utils/date-parser.ts] *)

Module DateParser.
Import Regex.

Record ParsedDateTime : Type := mkParsedDateTime {
  dateTime : Z;          (* a [Date], as epoch milliseconds *)
  timeZone : string;
  isAllDay : bool
}.

Record ParsedDuration : Type := mkParsedDuration {
  hours : Z;
  minutes : Z;
  totalMinutes : Z
}.

Definition digits : regex := Plus (Chr digit).
Definition spaces : regex := Star (Chr space).

(** [(?:hours?|hrs?|h)] and [(?:minutes?|mins?|m)] *)
Definition hour_unit : regex :=
  Alt (Seq (lit "hour") (Opt (lit "s")))
      (Alt (Seq (lit "hr") (Opt (lit "s"))) (lit "h")).
Definition minute_unit : regex :=
  Alt (Seq (lit "minute") (Opt (lit "s")))
      (Alt (Seq (lit "min") (Opt (lit "s"))) (lit "m")).

(** [DURATION_PATTERNS] *)
Definition pattern_hours : regex :=
  Seq (Group 1 digits) (Seq spaces hour_unit).
Definition pattern_minutes : regex :=
  Seq (Group 1 digits) (Seq spaces minute_unit).
Definition pattern_combined : regex :=
  Seq (Group 1 digits)
      (Seq spaces
           (Seq hour_unit
                (Seq spaces
                     (Seq (Opt (Seq (lit "and") spaces))
                          (Seq (Group 2 digits) (Seq spaces minute_unit)))))).
(** [/^(\d+)$/] *)
Definition pattern_number : regex :=
  Seq Bol (Seq (Group 1 digits) Eol).

(** [parseInt(s, 10)] on a string of decimal digits: the integer the
    digits denote.  The source has the nearest double, which is that
    integer as long as it does not exceed 2^53. *)
Definition parseInt (s : string) : Z :=
  (fix go (acc : Z) (s : string) : Z :=
     match s with
     | EmptyString => acc
     | String c s' =>
         if digit c then go (10 * acc + Z.of_nat (code c - 48)) s' else acc
     end) 0 s.

(** [parseInt(match[i] || d, 10)] *)
Definition group_number (cs : captures) (i : nat) (d : string) : Z :=
  parseInt (or_string (capture i cs) d).

Definition parseDuration (input : string) : error + ParsedDuration :=
  match exec pattern_combined input with
  | Some cs =>
      let h := group_number cs 1 "0" in
      let mi := group_number cs 2 "0" in
      inr (mkParsedDuration h mi (h * 60 + mi))
  | None =>
      let h :=
        match exec pattern_hours input with
        | Some cs => group_number cs 1 "0"
        | None => 0
        end in
      let mi :=
        match exec pattern_minutes input with
        | Some cs => group_number cs 1 "0"
        | None => 0
        end in
      if ((h =? 0) && (mi =? 0))%bool then
        match exec pattern_number input with
        | Some cs =>
            let h := group_number cs 1 "1" in
            inr (mkParsedDuration h mi (h * 60 + mi))
        | None =>
            inl (CalendarError
                   ("Could not parse duration from: " ++ dquote ++ input ++ dquote)
                   INVALID_DURATION)
        end
      else inr (mkParsedDuration h mi (h * 60 + mi))
  end.

(** [addHours] and [addMinutes] of date-fns add a fixed number of
    milliseconds to the instant.  Instants are unbounded here; in the
    source a [Date] more than 8.64e15 ms from the epoch is invalid, so
    the sums are those of the source as long as they stay in that
    range. *)
Definition addHours (d : Z) (amount : Z) : Z := d + amount * 3600000.
Definition addMinutes (d : Z) (amount : Z) : Z := d + amount * 60000.

(** [calculateEndTime(startTime, duration)]; [duration] is a string or an
    already parsed duration. *)
Definition calculateEndTime (startTime : Z) (duration : string + ParsedDuration)
  : error + Z :=
  let parsed :=
    match duration with
    | inl text => parseDuration text
    | inr d => inr d
    end in
  match parsed with
  | inl e => inl e
  | inr parsedDuration =>
      let endTime := startTime in
      let endTime :=
        if hours parsedDuration >? 0
        then addHours endTime (hours parsedDuration) else endTime in
      let endTime :=
        if minutes parsedDuration >? 0
        then addMinutes endTime (minutes parsedDuration) else endTime in
      inr endTime
  end.

(** [{ dateTime?, date?, timeZone? }] *)
Record EventDateTime : Type := mkEventDateTime {
  ev_dateTime : option string;
  ev_date : option string;
  ev_timeZone : option string
}.

(** [s.toUpperCase()], on the ASCII range *)
Fixpoint upper (s : string) : string :=
  match s with
  | EmptyString => EmptyString
  | String c s' => String (to_upper c) (upper s')
  end.

Definition aliases : list (string * string) :=
  [ ("EST", "America/New_York"); ("EDT", "America/New_York");
    ("CST", "America/Chicago"); ("CDT", "America/Chicago");
    ("MST", "America/Denver"); ("MDT", "America/Denver");
    ("PST", "America/Los_Angeles"); ("PDT", "America/Los_Angeles");
    ("KST", "Asia/Seoul"); ("JST", "Asia/Tokyo");
    ("GMT", "Etc/GMT"); ("UTC", "Etc/UTC") ].

Fixpoint lookup (key : string) (table : list (string * string)) : option string :=
  match table with
  | [] => None
  | (k, v) :: rest => if String.eqb key k then Some v else lookup key rest
  end.

(** One result of [chrono.parse]: the instant of [result.start.date()]
    and whether the hour and the minute are certain. *)
Record ChronoResult : Type := mkChronoResult {
  start_date : Z;
  certain_hour : bool;
  certain_minute : bool
}.

Section Libraries.

(** The libraries the module imports, and the two ambient values it
    reads. *)
Variable DEFAULT_TIMEZONE : string.   (* Intl...resolvedOptions().timeZone *)
Variable new_Date : Z.                (* new Date() *)
Variable chrono_parse : string -> Z -> list ChronoResult.
Variable toZonedTime : Z -> string -> Z.
Variable format_date : Z -> string.               (* format(d, 'yyyy-MM-dd') *)
Variable formatInTimeZone : Z -> string -> string.
                               (* formatInTimeZone(d, tz, RFC 3339 pattern) *)

Definition parseDateTime (input : string) (referenceDate : option Z)
           (tz_arg : option string) : error + ParsedDateTime :=
  let tz := or_string tz_arg DEFAULT_TIMEZONE in
  let refDate := match referenceDate with Some d => d | None => new_Date end in
  match chrono_parse input refDate with
  | [] =>
      inl (CalendarError ("Could not parse date/time from: " ++ dquote ++ input ++ dquote)
                         INVALID_DATE)
  | result :: _ =>
      let parsedDate := start_date result in
      let hasTime := (certain_hour result || certain_minute result)%bool in
      let zonedDate := toZonedTime parsedDate tz in
      inr (mkParsedDateTime zonedDate tz (negb hasTime))
  end.

(** [formatForCalendar(date, timeZone, isAllDay)] on a valid date and a
    time zone the library knows; on others the formatting functions of
    the library throw, which is not embedded. *)
Definition formatForCalendar (date : Z) (tz_arg : option string)
           (allDay : bool) : EventDateTime :=
  let tz := or_string tz_arg DEFAULT_TIMEZONE in
  if allDay
  then mkEventDateTime None (Some (format_date date)) None
  else mkEventDateTime (Some (formatInTimeZone date tz)) None (Some tz).

Definition getDefaultTimezone : string := DEFAULT_TIMEZONE.

Definition normalizeTimezone (timezone : option string) : string :=
  match truthy_string timezone with
  | None => DEFAULT_TIMEZONE
  | Some tz =>
      match truthy_string (lookup (upper tz) aliases) with
      | Some zone => zone
      | None => tz
      end
  end.

End Libraries.

End DateParser.

(* ================================================================== *)
(** ** [services/calendar.service.ts]: the request of [createEvent] *)

Module CalendarService.
Import DateParser.

Inductive ReminderMethod : Type := email | popup.

Record EventReminder : Type := mkEventReminder {
  method : ReminderMethod;
  reminder_minutes : Z
}.

Record CreateEventInput : Type := mkCreateEventInput {
  in_summary : string;
  in_description : option string;
  in_location : option string;
  in_startTime : string;
  in_endTime : option string;
  in_duration : option string;
  in_timeZone : option string;
  in_attendees : option (list string);
  in_reminders : option (list EventReminder);
  in_recurrence : option (list string);
  in_sendNotifications : option bool;
  in_calendarId : option string
}.

(** [calendar_v3.Schema$Event], the fields [createEvent] fills in. *)
Record GoogleEvent : Type := mkGoogleEvent {
  ge_summary : string;
  ge_description : option string;
  ge_location : option string;
  ge_start : EventDateTime;
  ge_end : EventDateTime;
  ge_attendees : option (list string);            (* [{ email }] *)
  ge_reminders : option (bool * list EventReminder); (* useDefault, overrides *)
  ge_recurrence : option (list string)
}.

Inductive SendUpdates : Type := all | none.

(** The argument of [calendar.events.insert]. *)
Record InsertRequest : Type := mkInsertRequest {
  calendarId : string;
  requestBody : GoogleEvent;
  sendUpdates : SendUpdates
}.

Definition DEFAULT_CALENDAR_ID : string := "primary".

Section Libraries.

Variable DEFAULT_TIMEZONE : string.
Variable new_Date : Z.
Variable chrono_parse : string -> Z -> list ChronoResult.
Variable toZonedTime : Z -> string -> Z.
Variable format_date : Z -> string.
Variable formatInTimeZone : Z -> string -> string.

Let parseDateTime := parseDateTime DEFAULT_TIMEZONE new_Date chrono_parse toZonedTime.
Let formatForCalendar := formatForCalendar DEFAULT_TIMEZONE format_date formatInTimeZone.
Let normalizeTimezone := normalizeTimezone DEFAULT_TIMEZONE.

(** The end of the event, the [endDate] of [createEvent]. *)
Definition createEvent_endDate (input : CreateEventInput) (timezone : string)
           (startDate : Z) : error + Z :=
  match truthy_string (in_endTime input) with
  | Some endTime =>
      match parseDateTime endTime None (Some timezone) with
      | inl e => inl e
      | inr endParsed => inr (dateTime endParsed)
      end
  | None =>
      match truthy_string (in_duration input) with
      | Some duration => calculateEndTime startDate (inl duration)
      | None => calculateEndTime startDate (inl "1 hour")
      end
  end.

(** [createEvent(input)] from the moment the calendar client is at hand
    up to the call of [calendar.events.insert]: the request it sends,
    or the exception a parser throws. *)
Definition createEvent_request (input : CreateEventInput)
  : error + InsertRequest :=
  let calendarId := or_string (in_calendarId input) DEFAULT_CALENDAR_ID in
  let timezone :=
    or_string (Some (normalizeTimezone (in_timeZone input)))
              (getDefaultTimezone DEFAULT_TIMEZONE) in
  match parseDateTime (in_startTime input) None (Some timezone) with
  | inl e => inl e
  | inr startParsed =>
      let startDate := dateTime startParsed in
      match createEvent_endDate input timezone startDate with
      | inl e => inl e
      | inr endDate =>
          let attendees :=
            match in_attendees input with
            | Some (a :: rest) => Some (a :: rest)
            | _ => None
            end in
          let reminders :=
            match in_reminders input with
            | Some rs => Some (false, rs)
            | None => None
            end in
          let eventResource :=
            mkGoogleEvent (in_summary input)
                          (in_description input)
                          (in_location input)
                          (formatForCalendar startDate (Some timezone)
                                             (isAllDay startParsed))
                          (formatForCalendar endDate (Some timezone)
                                             (isAllDay startParsed))
                          attendees reminders (in_recurrence input) in
          inr (mkInsertRequest
                 calendarId eventResource
                 (match in_sendNotifications input with
                  | Some true => all
                  | _ => none
                  end))
      end
  end.

End Libraries.

End CalendarService.

(* ================================================================== *)
(** ** Tool results ([utils/error-handler.ts], [tools/index.ts]) *)

(** [ToolResult]: [{ success: true, data }] or [{ success: false, error }]. *)
Inductive ToolResult (A : Type) : Type :=
| ToolSuccess (data : A)
| ToolFailure (error : string).
Arguments ToolSuccess {A} data.
Arguments ToolFailure {A} error.

Definition createSuccessResult {A} (data : A) : ToolResult A := ToolSuccess data.

(** The [ToolResult] that [createErrorResult] returns. *)
Definition errorResult {A} (e : error) : ToolResult A :=
  ToolFailure (createErrorResult e).

(** [withErrorHandling(operation)] *)
Definition withErrorHandling {A} (operation : prog A) : prog (ToolResult A) :=
  try_catch (result <- operation ;; Ret (createSuccessResult result))
            (fun e => Ret (errorResult e)).


(** The provider answers the next refresh with [outcome]. *)
Definition set_idp_refresh (outcome : error + Credentials) (w : World) : World :=
  mkWorld (credentials_json w) (tokens_json w) (data_dir w) (mkdir_fault w)
          (write_fault w) (unlink_fault w) (clock w) outcome (idp_token w)
          (idp_auth_url w) (log w).

(** The calls that write the token file. *)
Definition is_token_write (c : call) : bool :=
  match c with WriteTokensFile _ => true | _ => false end.

(** The program never takes the client away, never takes the initialized
    flag back, and keeps an initialized service in possession of a
    client. *)
Definition preserves_client {A} (p : prog A) : Prop :=
  forall s w,
    let s' := snd (fst (run p s w)) in
    (oauth2Client s <> None -> oauth2Client s' <> None) /\
    (initialized s = true -> initialized s' = true) /\
    ((initialized s = true -> oauth2Client s <> None) ->
     initialized s' = true -> oauth2Client s' <> None).

(** Every character of the string is a decimal digit. *)
Fixpoint all_digits (s : string) : bool :=
  match s with
  | EmptyString => true
  | String c s' => (Regex.digit c && all_digits s')%bool
  end.

(** No character of the string is a decimal digit. *)
Fixpoint no_digit (s : string) : bool :=
  match s with
  | EmptyString => true
  | String c s' => (negb (Regex.digit c) && no_digit s')%bool
  end.

(** Every character of the string is in the class [f]. *)
Fixpoint string_forall (f : ascii -> bool) (s : string) : bool :=
  match s with
  | EmptyString => true
  | String c s' => (f c && string_forall f s')%bool
  end.

(** The string starts with a character of the class [f]. *)
Definition head_is (f : ascii -> bool) (s : string) : bool :=
  match s with
  | EmptyString => false
  | String c _ => f c
  end.

(** The pattern has no capturing group. *)
Fixpoint group_free (r : Regex.regex) : bool :=
  match r with
  | Regex.Group _ _ => false
  | Regex.Seq a b | Regex.Alt a b => (group_free a && group_free b)%bool
  | Regex.Star a => group_free a
  | _ => true
  end.

(** The pattern matches nowhere at the front of a string without digits. *)
Definition dead (r : Regex.regex) : Prop :=
  forall total s cs k, no_digit s = true -> Regex.m r total s cs k = None.

(** The error [parseDuration] throws on [input]. *)
Definition duration_error (input : string) : error :=
  CalendarError ("Could not parse duration from: " ++ dquote ++ input ++ dquote)
                INVALID_DURATION.

(* ================================================================== *)
(** ** [services/calendar.service.ts] and [tools/index.ts]: the other
    requests *)

Module CalendarOps.
Import DateParser CalendarService.

Inductive OrderBy : Type := startTime | updated_.

Record ListEventsInput : Type := mkListEventsInput {
  li_timeMin : option string;
  li_timeMax : option string;
  li_maxResults : option Z;
  li_calendarId : option string;
  li_timeZone : option string;
  li_query : option string;
  li_showDeleted : option bool;
  li_singleEvents : option bool;
  li_orderBy : option OrderBy
}.

(** [calendar_v3.Params$Resource$Events$List], as [listEvents] fills it. *)
Record ListEventsParams : Type := mkListEventsParams {
  lp_calendarId : string;
  lp_timeMin : option string;
  lp_timeMax : option string;
  lp_maxResults : Z;
  lp_singleEvents : bool;
  lp_orderBy : OrderBy
}.

Record DeleteEventInput : Type := mkDeleteEventInput {
  di_eventId : string;
  di_calendarId : option string;
  di_sendNotifications : option bool;
  di_sendUpdates : option string
}.

Record DeleteRequest : Type := mkDeleteRequest {
  dr_calendarId : string;
  dr_eventId : string;
  dr_sendUpdates : SendUpdates
}.

Record UpdateEventInput : Type := mkUpdateEventInput {
  ui_eventId : string;
  ui_summary : option string;
  ui_description : option string;
  ui_location : option string;
  ui_startTime : option string;
  ui_endTime : option string;
  ui_timeZone : option string;
  ui_attendees : option (list string);
  ui_reminders : option (list EventReminder);
  ui_sendNotifications : option bool;
  ui_calendarId : option string
}.

(** [calendar_v3.Schema$EventAttendee] *)
Record Attendee : Type := mkAttendee {
  at_email : option string;
  at_displayName : option string;
  at_responseStatus : option string;
  at_optional : option bool
}.

(** [{ useDefault?, overrides? }] *)
Record Reminders : Type := mkReminders {
  rm_useDefault : option bool;
  rm_overrides : option (list EventReminder)
}.

(** [calendar_v3.Schema$Event] as [updateEvent] reads and writes it; the
    fields it never touches are kept together in [ev_other]. *)
Record Event (Other : Type) : Type := mkEvent {
  ev_summary : option string;
  ev_description : option string;
  ev_location : option string;
  ev_start : option EventDateTime;
  ev_end : option EventDateTime;
  ev_attendees : option (list Attendee);
  ev_reminders : option Reminders;
  ev_other : Other
}.
Arguments mkEvent {Other}.
Arguments ev_summary {Other}.
Arguments ev_description {Other}.
Arguments ev_location {Other}.
Arguments ev_start {Other}.
Arguments ev_end {Other}.
Arguments ev_attendees {Other}.
Arguments ev_reminders {Other}.
Arguments ev_other {Other}.

(** The argument of [calendar.events.update]. *)
Record UpdateRequest (Other : Type) : Type := mkUpdateRequest {
  ur_calendarId : string;
  ur_eventId : string;
  ur_requestBody : Event Other;
  ur_sendUpdates : SendUpdates
}.
Arguments mkUpdateRequest {Other}.
Arguments ur_calendarId {Other}.
Arguments ur_eventId {Other}.
Arguments ur_requestBody {Other}.
Arguments ur_sendUpdates {Other}.

(** [input.sendNotifications ? 'all' : 'none'] *)
Definition notify (flag : option bool) : SendUpdates :=
  match flag with
  | Some true => all
  | _ => none
  end.

(** The argument [deleteEvent] passes to [calendar.events.delete]. *)
Definition deleteEvent_request (input : DeleteEventInput) : DeleteRequest :=
  mkDeleteRequest (or_string (di_calendarId input) DEFAULT_CALENDAR_ID)
                  (di_eventId input)
                  (notify (di_sendNotifications input)).

(** The arguments of the tools, after the schemas have filled in their
    defaults. *)
Record ListEventsArgs : Type := mkListEventsArgs {
  la_timeMin : option string;
  la_timeMax : option string;
  la_maxResults : Z;
  la_calendarId : string;
  la_query : option string
}.

Record CreateEventArgs : Type := mkCreateEventArgs {
  ca_summary : string;
  ca_description : option string;
  ca_location : option string;
  ca_startTime : string;
  ca_endTime : option string;
  ca_duration : option string;
  ca_timeZone : option string;
  ca_attendees : option (list string);
  ca_reminders : option (list EventReminder);
  ca_calendarId : string
}.

Record UpdateEventArgs : Type := mkUpdateEventArgs {
  ua_eventId : string;
  ua_summary : option string;
  ua_description : option string;
  ua_location : option string;
  ua_startTime : option string;
  ua_endTime : option string;
  ua_timeZone : option string;
  ua_attendees : option (list string);
  ua_reminders : option (list EventReminder);
  ua_calendarId : string
}.

Inductive SendUpdatesArg : Type := arg_all | arg_externalOnly | arg_none.

Definition SendUpdatesArg_name (a : SendUpdatesArg) : string :=
  match a with
  | arg_all => "all"
  | arg_externalOnly => "externalOnly"
  | arg_none => "none"
  end.

Record DeleteEventArgs : Type := mkDeleteEventArgs {
  da_eventId : string;
  da_calendarId : string;
  da_sendUpdates : SendUpdatesArg
}.

(** The object each tool handler passes to the calendar service. *)
Definition handleListEvents_input (args : ListEventsArgs) : ListEventsInput :=
  mkListEventsInput (la_timeMin args) (la_timeMax args)
                    (Some (la_maxResults args)) (Some (la_calendarId args))
                    None (la_query args) None None None.

Definition handleCreateEvent_input (args : CreateEventArgs) : CreateEventInput :=
  mkCreateEventInput (ca_summary args) (ca_description args)
                     (ca_location args) (ca_startTime args) (ca_endTime args)
                     (ca_duration args) (ca_timeZone args) (ca_attendees args)
                     (ca_reminders args) None None (Some (ca_calendarId args)).

Definition handleUpdateEvent_input (args : UpdateEventArgs) : UpdateEventInput :=
  mkUpdateEventInput (ua_eventId args) (ua_summary args) (ua_description args)
                     (ua_location args) (ua_startTime args) (ua_endTime args)
                     (ua_timeZone args) (ua_attendees args) (ua_reminders args)
                     None (Some (ua_calendarId args)).

Definition handleDeleteEvent_input (args : DeleteEventArgs) : DeleteEventInput :=
  mkDeleteEventInput (da_eventId args) (Some (da_calendarId args)) None
                     (Some (SendUpdatesArg_name (da_sendUpdates args))).

Section Libraries.

Variable DEFAULT_TIMEZONE : string.
Variable new_Date : Z.
Variable chrono_parse : string -> Z -> list ChronoResult.
Variable toZonedTime : Z -> string -> Z.
Variable format_date : Z -> string.
Variable formatInTimeZone : Z -> string -> string.
Variable toISOString : Z -> error + string.   (* [d.toISOString()], which may throw *)
Variable add_days : Z -> Z -> Z.              (* [d.setDate(d.getDate() + n)] *)

Let parseDateTime := parseDateTime DEFAULT_TIMEZONE new_Date chrono_parse toZonedTime.
Let formatForCalendar := formatForCalendar DEFAULT_TIMEZONE format_date formatInTimeZone.
Let normalizeTimezone := normalizeTimezone DEFAULT_TIMEZONE.

(** One bound of [listEvents]: the parsed instant in ISO form, or the
    text as it is when the parser or the formatter throws. *)
Definition listEvents_bound (text : option string) (timezone : string)
  : option string :=
  match truthy_string text with
  | None => None
  | Some t =>
      match parseDateTime t None (Some timezone) with
      | inl _ => Some t
      | inr parsed =>
          match toISOString (dateTime parsed) with
          | inl _ => Some t
          | inr iso => Some iso
          end
      end
  end.

(** The argument [listEvents] passes to [calendar.events.list], or the
    exception thrown on the way. *)
Definition listEvents_params (input : ListEventsInput)
  : error + ListEventsParams :=
  let calendarId := or_string (li_calendarId input) DEFAULT_CALENDAR_ID in
  let timezone :=
    or_string (Some (normalizeTimezone (li_timeZone input)))
              (getDefaultTimezone DEFAULT_TIMEZONE) in
  let timeMin := listEvents_bound (li_timeMin input) timezone in
  let timeMax := listEvents_bound (li_timeMax input) timezone in
  let finish (timeMin timeMax : option string) :=
    mkListEventsParams calendarId timeMin timeMax
                       (or_number (li_maxResults input) 10) true startTime in
  match truthy_string timeMin, truthy_string timeMax with
  | None, None =>
      match toISOString new_Date with
      | inl e => inl e
      | inr from =>
          match toISOString (add_days new_Date 7) with
          | inl e => inl e
          | inr to => inr (finish (Some from) (Some to))
          end
      end
  | _, _ => inr (finish timeMin timeMax)
  end.

(** The argument [updateEvent] passes to [calendar.events.update], given
    the answer [existing] of [calendar.events.get], or the exception
    thrown on the way. *)
Definition updateEvent_request {Other : Type} (input : UpdateEventInput)
           (existing : option (Event Other)) : error + UpdateRequest Other :=
  let calendarId := or_string (ui_calendarId input) DEFAULT_CALENDAR_ID in
  let timezone :=
    or_string (Some (normalizeTimezone (ui_timeZone input)))
              (getDefaultTimezone DEFAULT_TIMEZONE) in
  match existing with
  | None =>
      inl (CalendarError ("Event not found: " ++ ui_eventId input)
                         EVENT_NOT_FOUND)
  | Some existingEvent =>
      let summary :=
        match ui_summary input with
        | Some v => Some v
        | None => ev_summary existingEvent
        end in
      let description :=
        match ui_description input with
        | Some v => Some v
        | None => ev_description existingEvent
        end in
      let location :=
        match ui_location input with
        | Some v => Some v
        | None => ev_location existingEvent
        end in
      let start :=
        match truthy_string (ui_startTime input) with
        | Some text =>
            match parseDateTime text None (Some timezone) with
            | inl e => inl e
            | inr startParsed =>
                inr (Some (formatForCalendar (dateTime startParsed)
                                             (Some timezone)
                                             (isAllDay startParsed)))
            end
        | None => inr (ev_start existingEvent)
        end in
      match start with
      | inl e => inl e
      | inr start =>
          let end_ :=
            match truthy_string (ui_endTime input) with
            | Some text =>
                match parseDateTime text None (Some timezone) with
                | inl e => inl e
                | inr endParsed =>
                    inr (Some (formatForCalendar (dateTime endParsed)
                                                 (Some timezone)
                                                 (isAllDay endParsed)))
                end
            | None => inr (ev_end existingEvent)
            end in
          match end_ with
          | inl e => inl e
          | inr end_ =>
              let attendees :=
                match ui_attendees input with
                | Some emails =>
                    Some (List.map (fun e => mkAttendee (Some e) None None None)
                                   emails)
                | None => ev_attendees existingEvent
                end in
              let reminders :=
                match ui_reminders input with
                | Some rs => Some (mkReminders (Some false) (Some rs))
                | None => ev_reminders existingEvent
                end in
              inr (mkUpdateRequest
                     calendarId (ui_eventId input)
                     (mkEvent summary description location start end_
                              attendees reminders (ev_other existingEvent))
                     (notify (ui_sendNotifications input)))
          end
      end
  end.

End Libraries.

End CalendarOps.

(* ================================================================== *)
(** ** Sample configuration

    A service that went through [initialize] with a desktop credential
    file and a stored token record, and worlds around it. *)

Module Sample.

Definition cfg : ClientConfig := mkClientConfig "client-1" "secret-1".
Definition creds : OAuthCredentials := mkOAuthCredentials (Some cfg) None.

(** A token record that expires at [expiry]. *)
Definition record_until (expiry : Z) : OAuthTokens :=
  mkOAuthTokens "access-0" (Some "refresh-0")
                "https://www.googleapis.com/auth/calendar" "Bearer" expiry.

Definition client_with (t : option OAuthTokens) : OAuth2Client :=
  mkOAuth2Client "client-1" "secret-1" "urn:ietf:wg:oauth:2.0:oob" t 1.

Definition service_until (expiry : Z) : AuthService :=
  mkAuthService (Some (client_with (Some (record_until expiry))))
                (Some creds) (Some (record_until expiry)) true.

Definition auth_url (c : OAuth2Client) : string :=
  "https://accounts.google.com/o/oauth2/v2/auth?client_id=" ++ oa_client_id c.

(** The answer of the provider to a refresh: new access token and expiry,
    no refresh token. *)
Definition refreshed : Credentials :=
  mkCredentials (Some "access-1") None None None (Some 5000000).

Definition revoked : error :=
  ProviderError (Some 400) [] "invalid_grant".

(** A world at time [t] whose token file holds [stored] and whose
    provider answers a refresh with [outcome]. *)
Definition world_at (t : Z) (stored : file OAuthTokens)
           (outcome : error + Credentials) : World :=
  mkWorld (Present (Document (Some creds))) stored true None None None t
          outcome
          (fun code =>
             if String.eqb code "validcode"
             then inr (mkCredentials (Some "access-0") (Some "refresh-0")
                                     None None (Some 4600000))
             else if String.eqb code "emptycode"
             then inr (mkCredentials None None None None None)
             else inl (ProviderError (Some 400) [] "invalid_grant"))
          auth_url [].

Definition stored_until (expiry : Z) : file OAuthTokens :=
  Present (Document (Some (record_until expiry))).

End Sample.

(* ================================================================== *)
(** ** General facts about programs *)

Section RunFacts.

Context {A B : Type}.

Lemma run_bind (p : prog A) (f : A -> prog B) s w :
  run (bind p f) s w =
  match run p s w with
  | (inr a, s', w') => run (f a) s' w'
  | (inl e, s', w') => (inl e, s', w')
  end.
Proof.
  revert s w; induction p; intros s0 w0; simpl; auto.
  destruct (settle c (issue c w0)) as [r w1]. apply H.
Qed.

Lemma run_try_catch (p : prog A) (h : error -> prog A) s w :
  run (try_catch p h) s w =
  match run p s w with
  | (inl e, s', w') => run (h e) s' w'
  | (inr a, s', w') => (inr a, s', w')
  end.
Proof.
  revert s w; induction p; intros s0 w0; simpl; auto.
  destruct (settle c (issue c w0)) as [r w1]. apply H.
Qed.

End RunFacts.

(** Issuing and settling only ever add to the log. *)
Lemma settle_log c w : log (snd (settle c w)) = log w.
Proof.
  destruct c; simpl; auto.
  - destruct (data_dir w); auto.
  - destruct (mkdir_fault w); auto.
  - destruct (write_fault w); auto.
  - destruct (unlink_fault w); auto. destruct (tokens_json w); auto.
Qed.

Lemma count_issue p c w :
  count_calls p (issue c w) =
  ((if p c then 1 else 0) + count_calls p w)%nat.
Proof. unfold count_calls; simpl. destruct (p c); reflexivity. Qed.


(** A program run alone is the interleaved execution in which nothing
    else happens: after finitely many resumptions the task has finished
    with the result, service and world of [run]. *)
Lemma run_is_a_schedule {A} (p : prog A) s w :
  exists n,
    resume_n n (advance p s w) =
    (Finished (fst (fst (run p s w))), snd (fst (run p s w)), snd (run p s w)).
Proof.
  revert s w; induction p; intros s0 w0; cbn; try (exists 0%nat; reflexivity); auto.
  destruct (H (fst (settle c (issue c w0))) s0 (snd (settle c (issue c w0))))
    as [n Hn].
  exists (S n). cbn.
  destruct (settle c (issue c w0)) as [r w1]. exact Hn.
Qed.

(* ================================================================== *)
(** ** The building blocks of [AuthService], one by one *)

Module AuthFacts.
Import AuthSvc.

#[local] Arguments saveTokens : simpl never.
#[local] Arguments handleTokenRefresh : simpl never.
#[local] Arguments createOAuth2Client : simpl never.
#[local] Arguments generateAuthUrl : simpl never.
#[local] Arguments loadCredentials : simpl never.
#[local] Arguments loadTokens : simpl never.
#[local] Arguments initialize : simpl never.
#[local] Arguments needsRefresh : simpl never.

Lemma saveTokens_saved t s w : saved t s w (run (saveTokens t) s w).
Proof.
  unfold saveTokens; cbn.
  destruct (data_dir w) eqn:Hdir; cbn.
  - destruct (write_fault w) eqn:Hw; cbn.
    + apply saved_failed; auto.
    + apply saved_ok; auto.
  - destruct (mkdir_fault w) eqn:Hm; cbn.
    + apply saved_failed; auto.
    + destruct (write_fault w) eqn:Hw; cbn.
      * apply saved_failed; auto.
      * apply saved_ok; auto.
Qed.

(** [saveTokens] talks to the file system only, and leaves the clock and
    the provider as they are. *)
Lemma saveTokens_env t s w :
  let w' := snd (run (saveTokens t) s w) in
  count_calls is_provider_call w' = count_calls is_provider_call w /\
  count_calls is_refresh w' = count_calls is_refresh w /\
  clock w' = clock w /\ idp_refresh w' = idp_refresh w /\
  idp_auth_url w' = idp_auth_url w.
Proof.
  unfold saveTokens; cbn.
  destruct (data_dir w); cbn.
  - destruct (write_fault w); cbn; auto.
  - destruct (mkdir_fault w); cbn; auto.
    destruct (write_fault w); cbn; auto.
Qed.

Lemma run_handleTokenRefresh r s w :
  run (handleTokenRefresh r) s w =
  match tokens s with
  | None => (inr tt, s, w)
  | Some t => run (saveTokens (updated t r)) s w
  end.
Proof. unfold handleTokenRefresh; cbn. destruct (tokens s); reflexivity. Qed.

(** [getClient] on a service that is initialized and holds a client and a
    token record. *)
Lemma run_getClient_ready c cr t w :
  let s := mkAuthService (Some c) cr (Some t) true in
  run getClient s w =
  if needsRefresh (clock w) s then
    match idp_refresh w with
    | inl e => (inl e, s, issue RefreshAccessToken w)
    | inr r =>
        match run (saveTokens (updated t r)) s (issue RefreshAccessToken w) with
        | (inl e, s', w') => (inl e, s', w')
        | (inr _, s', w') => (inr (Some c), s', w')
        end
    end
  else (inr (Some c), s, w).
Proof.
  intros s. unfold getClient. cbn.
  fold s.
  destruct (needsRefresh (clock w) s); cbn; [|reflexivity].
  destruct (idp_refresh w) as [e|r]; cbn; [reflexivity|].
  rewrite run_bind, run_handleTokenRefresh. subst s; cbn [tokens].
  pose proof (saveTokens_saved (updated t r)
                (mkAuthService (Some c) cr (Some t) true)
                (issue RefreshAccessToken w)) as H.
  destruct (run (saveTokens (updated t r)) _ _) as [[res s'] w'].
  inversion H; subst; reflexivity.
Qed.

(** [getClient] on an initialized service without a token record. *)
Lemma run_getClient_unauthenticated c cr w :
  let s := mkAuthService (Some c) cr None true in
  run getClient s w =
  (inl (CalendarError ("Not authenticated. Visit: " ++ idp_auth_url w c)
                      AUTH_TOKEN_INVALID), s, w).
Proof. reflexivity. Qed.

(** The number of refresh requests one [getClient] adds. *)
Lemma getClient_refresh_count c cr t w :
  let s := mkAuthService (Some c) cr (Some t) true in
  count_calls is_refresh (snd (run getClient s w)) =
  ((if needsRefresh (clock w) s then 1 else 0) + count_calls is_refresh w)%nat.
Proof.
  intros s. subst s. rewrite run_getClient_ready.
  set (s := mkAuthService (Some c) cr (Some t) true).
  destruct (needsRefresh (clock w) s); [|reflexivity].
  destruct (idp_refresh w) as [e|r]; [reflexivity|].
  pose proof (saveTokens_env (updated t r) s (issue RefreshAccessToken w))
    as (_ & Hc & _).
  destruct (run (saveTokens (updated t r)) s (issue RefreshAccessToken w))
    as [[[e|u] s'] w']; cbn in *; rewrite Hc; reflexivity.
Qed.

Lemma needsRefresh_window c cr t date_now :
  expiry_date t <> 0 ->
  needsRefresh date_now (mkAuthService c cr (Some t) true) = true <->
  expiry_date t - 5 * 60 * 1000 <= date_now.
Proof.
  intros Hne. unfold needsRefresh, buffer; cbn [tokens].
  destruct (Z.eqb_spec (expiry_date t) 0); [contradiction|].
  rewrite Z.geb_le. lia.
Qed.

(** The first suspension of [getClient] inside the refresh window. *)
Lemma advance_getClient_ready c cr t w :
  let s := mkAuthService (Some c) cr (Some t) true in
  needsRefresh (clock w) s = true ->
  advance getClient s w =
  (Suspended RefreshAccessToken after_refresh, s, issue RefreshAccessToken w).
Proof.
  intros s H. unfold getClient. cbn. fold s. rewrite H. reflexivity.
Qed.

Lemma start_all_getClient_ready n c cr t w :
  let s := mkAuthService (Some c) cr (Some t) true in
  needsRefresh (clock w) s = true ->
  exists w',
    start_all n getClient s w =
    (repeat (Suspended RefreshAccessToken after_refresh) n, s, w') /\
    count_calls is_refresh w' = (n + count_calls is_refresh w)%nat /\
    count_calls is_store_write w' = count_calls is_store_write w /\
    clock w' = clock w /\ idp_refresh w' = idp_refresh w /\
    tokens_json w' = tokens_json w.
Proof.
  intros s H. induction n as [|n IH].
  - exists w. cbn. repeat split; reflexivity.
  - destruct IH as (w1 & E & Hc & Hs & Hclock & Hidp & Hfile).
    exists (issue RefreshAccessToken w1).
    cbn [start_all]. rewrite E.
    subst s. rewrite advance_getClient_ready by (rewrite Hclock; exact H).
    cbn [repeat]. split; [reflexivity|].
    rewrite !count_issue. cbn. rewrite Hc, Hs. auto.
Qed.

End AuthFacts.

(* ================================================================== *)
(** ** The properties of the design document *)

Import AuthSvc AuthFacts.

(** *** Refresh coordination (C1) *)

(** C1, as the document states it, fails: two [getClient] calls started
    back to back on an initialized service whose token expires in 100
    seconds are both suspended on a refresh request of their own, so two
    requests, not at most one, have reached the provider client. *)
Lemma C1_two_callers_two_refreshes :
  let s := Sample.service_until 1000000 in
  let w := Sample.world_at 900000 (Sample.stored_until 1000000)
                           (inr Sample.refreshed) in
  needsRefresh (clock w) s = true /\
  let '(ts, s', w') := start_all 2 getClient s w in
  Forall (awaits RefreshAccessToken) ts /\
  count_calls is_refresh w' = 2%nat /\
  ~ (count_calls is_refresh w' <= 1)%nat.
Proof.
  cbv zeta. split; [reflexivity|]. cbn.
  split; [repeat constructor|]. split; [reflexivity|].
  unfold count_calls; cbn. lia.
Qed.

(** C1, amended: the service has no single-flight coordination.  Each of
    [n] [getClient] calls started back to back while the token is inside
    the refresh window issues a refresh request of its own and is
    suspended on it: [n] requests reach the provider client while the
    service and the token store are unchanged, and each caller continues
    from the answer to its own request ([after_refresh]: the provider's
    error, or [handleTokenRefresh] on the credentials it received). *)
Theorem C1_one_refresh_per_caller (n : nat) c cr t w :
  let s := mkAuthService (Some c) cr (Some t) true in
  needsRefresh (clock w) s = true ->
  let '(ts, s', w') := start_all n getClient s w in
  ts = repeat (Suspended RefreshAccessToken after_refresh) n /\
  s' = s /\
  count_calls is_refresh w' = (n + count_calls is_refresh w)%nat /\
  count_calls is_store_write w' = count_calls is_store_write w /\
  (forall e s2 w2, run (after_refresh (inl e)) s2 w2 = (inl e, s2, w2)) /\
  (forall r s2 w2,
     run (after_refresh (inr r)) s2 w2 =
     match run (handleTokenRefresh r) s2 w2 with
     | (inl e, s3, w3) => (inl e, s3, w3)
     | (inr _, s3, w3) => (inr (oauth2Client s3), s3, w3)
     end).
Proof.
  intros s H.
  destruct (start_all_getClient_ready n c cr t w H) as (w' & E & Hc & Hs & _).
  fold s in E. rewrite E. repeat split; auto.
  intros r s2 w2. unfold after_refresh. rewrite run_bind. cbn [bind].
  destruct (run (handleTokenRefresh r) s2 w2) as [[[e|u] s3] w3]; reflexivity.
Qed.

(** C1 on the sample service with three callers. *)
Lemma C1_witness :
  let s := Sample.service_until 1000000 in
  let w := Sample.world_at 900000 (Sample.stored_until 1000000)
                           (inr Sample.refreshed) in
  let '(ts, s', w') := start_all 3 getClient s w in
  ts = repeat (Suspended RefreshAccessToken after_refresh) 3 /\
  s' = s /\
  count_calls is_refresh w' = (3 + count_calls is_refresh w)%nat /\
  count_calls is_store_write w' = count_calls is_store_write w /\
  (forall e s2 w2, run (after_refresh (inl e)) s2 w2 = (inl e, s2, w2)) /\
  (forall r s2 w2,
     run (after_refresh (inr r)) s2 w2 =
     match run (handleTokenRefresh r) s2 w2 with
     | (inl e, s3, w3) => (inl e, s3, w3)
     | (inr _, s3, w3) => (inr (oauth2Client s3), s3, w3)
     end).
Proof.
  exact (C1_one_refresh_per_caller 3
           (Sample.client_with (Some (Sample.record_until 1000000)))
           (Some Sample.creds) (Sample.record_until 1000000)
           (Sample.world_at 900000 (Sample.stored_until 1000000)
                            (inr Sample.refreshed))
           eq_refl).
Defined.

(** *** A refused refresh (C2) *)

(** C2, as the document states it, fails: the provider refuses the
    refresh ([invalid_grant]); [getClient] rejects with the provider's
    error, the token record stays in memory and in the store, and the
    next [getClient] sends a second refresh request and rejects with the
    same error, not with [AUTH_TOKEN_INVALID]. *)
Lemma C2_refused_refresh_is_retried :
  let s := Sample.service_until 1000000 in
  let w := Sample.world_at 900000 (Sample.stored_until 1000000)
                           (inl Sample.revoked) in
  let '(r1, s1, w1) := run getClient s w in
  let '(r2, s2, w2) := run getClient s1 w1 in
  r1 = inl Sample.revoked /\
  tokens s1 = Some (Sample.record_until 1000000) /\
  tokens_json w1 = Sample.stored_until 1000000 /\
  r2 = inl Sample.revoked /\
  error_code Sample.revoked <> Some AUTH_TOKEN_INVALID /\
  count_calls is_refresh w2 = 2%nat.
Proof.
  cbv zeta. cbn. repeat split; try reflexivity. discriminate.
Qed.

(** C2, amended: when the provider refuses a refresh, [getClient] rejects
    with the provider's error and changes neither the service (the token
    record stays) nor the token store; a following [getClient], the
    token still being inside the refresh window, sends a refresh request
    again and rejects with the same error. *)
Theorem C2_failed_refresh_keeps_record c cr t w e :
  let s := mkAuthService (Some c) cr (Some t) true in
  needsRefresh (clock w) s = true ->
  idp_refresh w = inl e ->
  let '(r1, s1, w1) := run getClient s w in
  let '(r2, s2, w2) := run getClient s1 w1 in
  r1 = inl e /\ s1 = s /\ tokens_json w1 = tokens_json w /\
  count_calls is_store_write w1 = count_calls is_store_write w /\
  r2 = inl e /\ s2 = s /\ tokens_json w2 = tokens_json w /\
  count_calls is_refresh w2 = (2 + count_calls is_refresh w)%nat.
Proof.
  intros s Hwin Hidp. subst s.
  rewrite run_getClient_ready, Hwin, Hidp.
  rewrite run_getClient_ready. cbn [clock issue idp_refresh].
  rewrite Hwin, Hidp. repeat split; reflexivity.
Qed.

(** C2 on the sample service and a provider that answers [invalid_grant]. *)
Lemma C2_witness :
  let s := Sample.service_until 1000000 in
  let w := Sample.world_at 900000 (Sample.stored_until 1000000)
                           (inl Sample.revoked) in
  let '(r1, s1, w1) := run getClient s w in
  let '(r2, s2, w2) := run getClient s1 w1 in
  r1 = inl Sample.revoked /\ s1 = s /\ tokens_json w1 = tokens_json w /\
  count_calls is_store_write w1 = count_calls is_store_write w /\
  r2 = inl Sample.revoked /\ s2 = s /\ tokens_json w2 = tokens_json w /\
  count_calls is_refresh w2 = (2 + count_calls is_refresh w)%nat.
Proof.
  exact (C2_failed_refresh_keeps_record
           (Sample.client_with (Some (Sample.record_until 1000000)))
           (Some Sample.creds) (Sample.record_until 1000000)
           (Sample.world_at 900000 (Sample.stored_until 1000000)
                            (inl Sample.revoked))
           Sample.revoked eq_refl eq_refl).
Defined.

(** *** The refresh window (C4) *)

(** C4: on an initialized service holding a token record with an expiry
    timestamp, [getClient] sends exactly one refresh request when the
    current time is within five minutes of the expiry or past it, and
    none otherwise; with the expiry four minutes ahead it sends one, with
    the expiry ten minutes ahead it sends none and returns the client at
    once, leaving service and world as they were. *)
Theorem C4_refresh_iff_within_window c cr t w :
  expiry_date t <> 0 ->
  let s := mkAuthService (Some c) cr (Some t) true in
  let before := count_calls is_refresh w in
  let after := count_calls is_refresh (snd (run getClient s w)) in
  (after = S before <-> expiry_date t - 5 * 60 * 1000 <= clock w) /\
  (after = before <-> clock w < expiry_date t - 5 * 60 * 1000) /\
  (expiry_date t = clock w + 4 * 60 * 1000 -> after = S before) /\
  (expiry_date t = clock w + 10 * 60 * 1000 ->
   after = before /\ run getClient s w = (inr (Some c), s, w)).
Proof.
  intros Hne s before after.
  assert (Hcount : after =
            ((if needsRefresh (clock w) s then 1 else 0) + before)%nat)
    by apply getClient_refresh_count.
  pose proof (needsRefresh_window (Some c) cr t (clock w) Hne) as Hwin.
  fold s in Hwin.
  assert (Hrun := run_getClient_ready c cr t w). cbv zeta in Hrun. fold s in Hrun.
  destruct (needsRefresh (clock w) s) eqn:E.
  - assert (expiry_date t - 5 * 60 * 1000 <= clock w) by (apply Hwin; reflexivity).
    repeat split; intros; try lia.
  - assert (~ expiry_date t - 5 * 60 * 1000 <= clock w)
      by (intro Hle; apply Hwin in Hle; discriminate).
    repeat split; intros; try lia; exact Hrun.
Qed.

(** C4 with the expiry four minutes ahead. *)
Lemma C4_witness :
  let t := Sample.record_until (900000 + 4 * 60 * 1000) in
  let s := mkAuthService (Some (Sample.client_with (Some t)))
                         (Some Sample.creds) (Some t) true in
  let w := Sample.world_at 900000 (Present (Document (Some t)))
                           (inr Sample.refreshed) in
  expiry_date t <> 0 /\
  count_calls is_refresh (snd (run getClient s w)) = 1%nat.
Proof.
  cbv zeta. split; [discriminate|].
  apply (C4_refresh_iff_within_window
           (Sample.client_with (Some (Sample.record_until (900000 + 4 * 60 * 1000))))
           (Some Sample.creds)
           (Sample.record_until (900000 + 4 * 60 * 1000))
           (Sample.world_at 900000
              (Present (Document (Some (Sample.record_until (900000 + 4 * 60 * 1000)))))
              (inr Sample.refreshed))).
  - discriminate.
  - reflexivity.
Defined.

(** *** The refresh token across a refresh (C5) *)

(** C5: when the provider's answer to a refresh carries no refresh token
    (the field is absent, [null] or empty), the record the service holds
    after [handleTokenRefresh] has the refresh token it had before; when
    the record was saved, its access token and expiry are those of the
    answer (the old ones where the answer has none), scope and token type
    are kept, and the store holds the same record.  The same holds for
    the record held after a [getClient] whose refresh got that answer. *)
Theorem C5_refresh_token_retained r c cr t ini w :
  truthy_string (cred_refresh_token r) = None ->
  let s := mkAuthService c cr (Some t) ini in
  (let '(res, s', w') := run (handleTokenRefresh r) s w in
   (exists t', tokens s' = Some t' /\ refresh_token t' = refresh_token t) /\
   (res = inr tt ->
    tokens s' =
    Some (mkOAuthTokens (or_string (cred_access_token r) (access_token t))
                        (refresh_token t) (scope t) (token_type t)
                        (or_number (cred_expiry_date r) (expiry_date t))) /\
    tokens_json w' = Present (Document (tokens s')))) /\
  (forall cl, c = Some cl -> ini = true -> idp_refresh w = inr r ->
   exists t', tokens (snd (fst (run getClient s w))) = Some t' /\
              refresh_token t' = refresh_token t).
Proof.
  intros Hno s.
  assert (Hup : updated t r =
                mkOAuthTokens (or_string (cred_access_token r) (access_token t))
                              (refresh_token t) (scope t) (token_type t)
                              (or_number (cred_expiry_date r) (expiry_date t)))
    by (unfold updated; rewrite Hno; reflexivity).
  split.
  - rewrite run_handleTokenRefresh. cbn [tokens s].
    pose proof (saveTokens_saved (updated t r) s w) as H.
    destruct (run (saveTokens (updated t r)) s w) as [[res s'] w'].
    inversion H; subst res s'.
    + split.
      * exists (updated t r). split; [reflexivity|]. rewrite Hup; reflexivity.
      * intros _. cbn [tokens set_tokens]. rewrite <- Hup. split; [reflexivity|]. assumption.
    + split.
      * exists t. split; reflexivity.
      * discriminate.
  - intros cl -> -> Hidp. subst s. rewrite run_getClient_ready, Hidp.
    set (s := mkAuthService (Some cl) cr (Some t) true).
    destruct (needsRefresh (clock w) s).
    + pose proof (saveTokens_saved (updated t r) s (issue RefreshAccessToken w)) as H.
      destruct (run (saveTokens (updated t r)) s (issue RefreshAccessToken w))
        as [[res s'] w'].
      inversion H; subst res s'; cbn.
      * exists (updated t r). split; [reflexivity|]. rewrite Hup; reflexivity.
      * exists t. split; reflexivity.
    + exists t. split; reflexivity.
Qed.

(** C5 on the sample service and an answer without a refresh token. *)
Lemma C5_witness :
  let t := Sample.record_until 1000000 in
  let s := Sample.service_until 1000000 in
  let w := Sample.world_at 900000 (Sample.stored_until 1000000)
                           (inr Sample.refreshed) in
  let '(res, s', w') := run (handleTokenRefresh Sample.refreshed) s w in
  (exists t', tokens s' = Some t' /\ refresh_token t' = Some "refresh-0") /\
  (res = inr tt ->
   tokens s' =
   Some (mkOAuthTokens "access-1" (Some "refresh-0")
                       "https://www.googleapis.com/auth/calendar" "Bearer"
                       5000000) /\
   tokens_json w' = Present (Document (tokens s'))).
Proof.
  exact (proj1 (C5_refresh_token_retained
                  Sample.refreshed
                  (Some (Sample.client_with (Some (Sample.record_until 1000000))))
                  (Some Sample.creds) (Sample.record_until 1000000) true
                  (Sample.world_at 900000 (Sample.stored_until 1000000)
                                   (inr Sample.refreshed))
                  eq_refl)).
Defined.

(** *** Persistence (C6) *)



(** *** [getStatus] (C3) *)

(** C3, as the document states it, fails: [initialize] loads the
    credentials and then rejects on a token file that is not JSON, which
    leaves the service with credentials and without a client; the
    following [getStatus] builds the client on its way to the
    authorization URL and stores it in the service. *)
Lemma C3_getStatus_creates_client :
  let w := Sample.world_at 900000 (Present Garbled) (inr Sample.refreshed) in
  let '(r0, s0, w0) := run initialize fresh_service w in
  let '(r1, s1, w1) := run getStatus s0 w0 in
  r0 = inl (CalendarError "Failed to load tokens" PARSE_ERROR) /\
  oauth2Client s0 = None /\
  oauth2Client s1 = Some (Sample.client_with None) /\
  s1 <> s0.
Proof.
  cbv zeta. cbn. repeat split; try reflexivity. discriminate.
Qed.

(** C3, amended: [getStatus] issues no call at all, so it writes nothing
    to the token store and sends nothing to the provider, and the world
    is as before; it leaves the credentials, the token record and the
    initialized flag of the service unchanged.  The client is unchanged
    too, except that a service which holds credentials with a client
    section but no client gets one built and stored (the lazy
    construction in [generateAuthUrl]).  A second [getStatus] changes
    nothing more. *)
Theorem C3_getStatus_frame s w :
  let '(r, s', w') := run getStatus s w in
  w' = w /\
  credentials s' = credentials s /\
  tokens s' = tokens s /\
  initialized s' = initialized s /\
  (s' = s \/
   (oauth2Client s = None /\
    exists creds cfg client,
      credentials s = Some creds /\ clientConfig creds = Some cfg /\
      s' = set_oauth2Client (Some client) s)) /\
  snd (fst (run getStatus s' w')) = s' /\
  snd (run getStatus s' w') = w'.
Proof.
  destruct s as [cl cr tk ini].
  unfold getStatus, generateAuthUrl, createOAuth2Client, toISOString,
    isAuthenticated.
  destruct tk as [t|]; destruct cl as [c|]; cbn;
    repeat match goal with
      | |- context [if ?b then _ else _] => destruct b eqn:?; cbn
      | |- context [match ?x with Some _ => _ | None => _ end] =>
          destruct x eqn:?; cbn
      end;
    try congruence; repeat split; auto.
  all: right; split; auto; do 3 eexists; repeat split; eauto.
Qed.

(** *** Code exchange (C7) *)

(** C7, as the document states it, fails: the provider answers the code
    exchange without an access token; [exchangeCode] rejects with a plain
    [Error] that is no [CalendarError] and carries no error code, and
    [createErrorResult] reports it under [UNKNOWN_ERROR], the tag of
    every unclassified error. *)
Lemma C7_no_access_token_is_untagged :
  let s := mkAuthService (Some (Sample.client_with None)) (Some Sample.creds)
                         None true in
  let w := Sample.world_at 900000 Absent (inr Sample.refreshed) in
  let '(r, s', w') := run (exchangeCode "emptycode") s w in
  r = inl (PlainError "No access token received") /\
  (forall e, r = inl e -> error_code e = None) /\
  (forall e, r = inl e ->
             createErrorResult e = "[UNKNOWN_ERROR] No access token received").
Proof.
  cbv zeta. cbn. split; [reflexivity|].
  split; intros e H; injection H as <-; reflexivity.
Qed.

(** C7, amended: [exchangeCode] on a service with a client fails in both
    cases, but not with an error of a kind of its own: when the provider
    rejects the code it rejects with the provider's error as it is, and
    when the answer has no access token it rejects with the plain error
    [No access token received], which has no error code and is reported
    under [UNKNOWN_ERROR]. *)
Theorem C7_exchange_failures code c cr tk ini w :
  let s := mkAuthService (Some c) cr tk ini in
  let result := fst (fst (run (exchangeCode code) s w)) in
  (forall e, idp_token w code = inl e -> result = inl e) /\
  (forall r, idp_token w code = inr r ->
             truthy_string (cred_access_token r) = None ->
             exists e,
               result = inl e /\
               e = PlainError "No access token received" /\
               error_code e = None /\
               createErrorResult e =
               tagged UNKNOWN_ERROR "No access token received").
Proof.
  intros s result; subst result; split.
  - intros e H. unfold exchangeCode; cbn. rewrite H. reflexivity.
  - intros r H Hno. unfold exchangeCode; cbn. rewrite H. cbn. rewrite Hno.
    eexists. repeat split; reflexivity.
Qed.

(** C7 on a code the provider rejects. *)
Lemma C7_witness :
  let s := mkAuthService (Some (Sample.client_with None)) (Some Sample.creds)
                         None true in
  let w := Sample.world_at 900000 Absent (inr Sample.refreshed) in
  fst (fst (run (exchangeCode "badcode") s w)) =
  inl (ProviderError (Some 400) [] "invalid_grant").
Proof.
  exact (proj1 (C7_exchange_failures "badcode" (Sample.client_with None)
                  (Some Sample.creds) None true
                  (Sample.world_at 900000 Absent (inr Sample.refreshed)))
               _ eq_refl).
Defined.

(** *** [initialize] (C8) *)

(** C8, as the document states it, fails twice: a credential file that is
    not JSON makes [initialize] reject with [PARSE_ERROR], not with
    [AUTH_NOT_CONFIGURED]; and an unreadable token file makes
    [initialize] reject with [PARSE_ERROR] instead of succeeding without
    a token record. *)
Lemma C8_parse_errors :
  let w := Sample.world_at 900000 Absent (inr Sample.refreshed) in
  let '(r1, s1, _) := run initialize fresh_service
                          (set_credentials_json (Present Garbled) w) in
  let '(r2, s2, _) := run initialize fresh_service
                          (set_tokens_json Unreadable w) in
  r1 = inl (CalendarError "Failed to load credentials" PARSE_ERROR) /\
  r2 = inl (CalendarError "Failed to load tokens" PARSE_ERROR) /\
  initialized s2 = false.
Proof. cbv zeta. cbn. repeat split; reflexivity. Qed.

(** C8, amended: [initialize] on a service that is not yet initialized
    - rejects with [AUTH_NOT_CONFIGURED] when the credential file does
      not exist;
    - rejects with [PARSE_ERROR] when the credential file cannot be read
      or is not JSON;
    - otherwise rejects with [PARSE_ERROR] when the token file exists but
      cannot be read or is not JSON;
    - otherwise rejects with [AUTH_NOT_CONFIGURED] when the credentials
      have neither an [installed] nor a [web] section;
    - otherwise succeeds; a token file that does not exist is no error
      and leaves the service initialized, with a client, without a token
      record and so not authenticated. *)
Theorem C8_initialize_outcomes cl cr tk w :
  let s := mkAuthService cl cr tk false in
  let '(r, s', w') := run initialize s w in
  match credentials_json w with
  | Absent =>
      r = inl (CalendarError
                 "OAuth credentials not found. Place credentials.json in config/"
                 AUTH_NOT_CONFIGURED) /\ s' = s
  | Unreadable | Present Garbled =>
      r = inl (CalendarError "Failed to load credentials" PARSE_ERROR) /\ s' = s
  | Present (Document v) =>
      match tokens_json w with
      | Unreadable | Present Garbled =>
          r = inl (CalendarError "Failed to load tokens" PARSE_ERROR) /\
          initialized s' = false
      | stored =>
          let record :=
            match stored with Present (Document d) => d | _ => None end in
          match match v with Some c => clientConfig c | None => None end with
          | None =>
              (exists m, r = inl (CalendarError m AUTH_NOT_CONFIGURED)) /\
              initialized s' = false
          | Some cfg =>
              r = inr tt /\ initialized s' = true /\
              credentials s' = v /\ tokens s' = record /\
              oauth2Client s' <> None /\
              isAuthenticated s' =
              match record with Some _ => true | None => false end
          end
      end
  end.
Proof.
  intros s. unfold initialize, loadCredentials, loadTokens, createOAuth2Client.
  cbn.
  destruct (credentials_json w) as [| |[|v]]; cbn; auto.
  destruct (tokens_json w) as [| |[|d]]; cbn; auto.
  - destruct v as [c0|]; cbn; [|eauto].
    destruct (clientConfig c0); cbn; [|eauto].
    repeat split; auto; discriminate.
  - destruct v as [c0|]; cbn; [|destruct d; cbn; eauto].
    destruct (clientConfig c0); cbn; [|destruct d; cbn; eauto].
    destruct d; cbn; repeat split; auto; discriminate.
Qed.

(** *** [clearTokens] (C9) *)

(** C9, as the document states it, fails on a service that was never
    initialized: [clearTokens] swallows the failure of [unlink], the
    token file survives, and the following [getClient] runs [initialize],
    loads the record back and returns a client. *)
Lemma C9_cleared_then_reloaded :
  let w := set_unlink_fault (Some EPERM)
             (Sample.world_at 900000 (Sample.stored_until 5000000)
                              (inr Sample.refreshed)) in
  let '(r1, s1, w1) := run clearTokens fresh_service w in
  let '(r2, s2, w2) := run getClient s1 w1 in
  r1 = inr tt /\ tokens s1 = None /\
  tokens_json w1 = Sample.stored_until 5000000 /\
  r2 = inr (Some (Sample.client_with (Some (Sample.record_until 5000000)))) /\
  tokens s2 = Some (Sample.record_until 5000000).
Proof. cbv zeta. cbn. repeat split; reflexivity. Qed.

(** The goals left once both runs are evaluated. *)
Ltac c9_finish Hurl :=
  repeat match goal with
         | |- _ /\ _ => split
         | |- exists _, _ => eexists
         | |- _ <> "" => apply Hurl
         | |- forall _, _ => intro
         | H : Some _ = Some _ |- _ => injection H as <-
         | H : inl _ = inl _ |- _ => injection H as <-
         end;
  try reflexivity; try discriminate.

(** C9, amended: after [clearTokens] the token record in memory is gone,
    and the following [getClient] rejects with [AUTH_TOKEN_INVALID], its
    message ending with the authorization URL that the provider client
    held by the service builds (not empty when the client builds none
    that is) and no refresh being requested, in two situations: the
    service is initialized (it then holds a client, the one it had, its
    credentials dropped); or it was never initialized, [unlink] did not
    fail, and the credential file holds credentials with a client
    section, so that the [initialize] run by [getClient] finds no token
    file and builds the client. *)
Theorem C9_cleared_then_not_authenticated cl cr tk ini w :
  (forall client, idp_auth_url w client <> "") ->
  (ini = true /\ cl <> None) \/
  (ini = false /\ unlink_fault w = None /\
   exists creds cfg,
     credentials_json w = Present (Document (Some creds)) /\
     clientConfig creds = Some cfg) ->
  let s := mkAuthService cl cr tk ini in
  let '(r1, s1, w1) := run clearTokens s w in
  let '(r2, s2, w2) := run getClient s1 w1 in
  r1 = inr tt /\ tokens s1 = None /\
  (exists client,
     oauth2Client s2 = Some client /\
     (ini = true -> oauth2Client s1 = Some client /\
                    forall c, cl = Some c -> client = dropCredentials c) /\
     r2 = inl (CalendarError
                 ("Not authenticated. Visit: " ++ idp_auth_url w client)
                 AUTH_TOKEN_INVALID) /\
     idp_auth_url w client <> "") /\
  (forall e, r2 = inl e -> error_code e = Some AUTH_TOKEN_INVALID) /\
  (forall x, r2 <> inr x) /\
  count_calls is_refresh w2 = count_calls is_refresh w.
Proof.
  intros Hurl [[-> Hcl] | (-> & Hun & creds & cfg & Hc & Hcfg)] s; subst s.
  - destruct cl as [c|]; [|contradiction].
    unfold clearTokens; cbn.
    destruct (unlink_fault w); cbn;
      [|destruct (tokens_json w); cbn]; c9_finish Hurl.
  - unfold clearTokens, getClient, initialize, loadCredentials, loadTokens,
      generateAuthUrl, createOAuth2Client.
    destruct cl as [c|]; cbn -[clientConfig]; rewrite Hun;
      destruct (tokens_json w) eqn:Htk; cbn -[clientConfig];
      rewrite ?Htk, Hc; cbn -[clientConfig]; rewrite ?Htk, ?Hcfg;
      cbn -[clientConfig]; rewrite ?Hcfg; cbn; c9_finish Hurl.
Qed.

(** C9 on the sample service, initialized and holding a record. *)
Lemma C9_witness :
  let s := Sample.service_until 5000000 in
  let w := Sample.world_at 900000 (Sample.stored_until 5000000)
                           (inr Sample.refreshed) in
  let '(r1, s1, w1) := run clearTokens s w in
  let '(r2, s2, w2) := run getClient s1 w1 in
  r1 = inr tt /\ tokens s1 = None /\
  (exists client,
     oauth2Client s2 = Some client /\
     (true = true -> oauth2Client s1 = Some client /\
                     forall c, Some (Sample.client_with
                                       (Some (Sample.record_until 5000000)))
                               = Some c ->
                               client = dropCredentials c) /\
     r2 = inl (CalendarError
                 ("Not authenticated. Visit: " ++ idp_auth_url w client)
                 AUTH_TOKEN_INVALID) /\
     idp_auth_url w client <> "") /\
  (forall e, r2 = inl e -> error_code e = Some AUTH_TOKEN_INVALID) /\
  (forall x, r2 <> inr x) /\
  count_calls is_refresh w2 = count_calls is_refresh w.
Proof.
  apply (C9_cleared_then_not_authenticated
           (Some (Sample.client_with (Some (Sample.record_until 5000000))))
           (Some Sample.creds) (Some (Sample.record_until 5000000)) true
           (Sample.world_at 900000 (Sample.stored_until 5000000)
                            (inr Sample.refreshed))).
  - intros client. discriminate.
  - left. split; [reflexivity|discriminate].
Defined.

(** *** The default duration of [createEvent] (C10) *)

Section CreateEvent.
Import DateParser CalendarService.

Variable DEFAULT_TIMEZONE : string.
Variable new_Date : Z.
Variable chrono_parse : string -> Z -> list ChronoResult.
Variable toZonedTime : Z -> string -> Z.
Variable format_date : Z -> string.
Variable formatInTimeZone : Z -> string -> string.

Let request :=
  createEvent_request DEFAULT_TIMEZONE new_Date chrono_parse toZonedTime
                      format_date formatInTimeZone.
Let endDate :=
  createEvent_endDate DEFAULT_TIMEZONE new_Date chrono_parse toZonedTime.
Let parse :=
  parseDateTime DEFAULT_TIMEZONE new_Date chrono_parse toZonedTime.
Let render :=
  formatForCalendar DEFAULT_TIMEZONE format_date formatInTimeZone.

Lemma default_duration : parseDuration "1 hour" = inr (mkParsedDuration 1 0 60).
Proof. reflexivity. Qed.

(** C10: when the input has neither an end time nor a duration (each
    absent or empty), the end of the event is exactly one hour, 3 600 000
    milliseconds, after the parsed start; the request sent to the
    calendar carries that instant as its [end], rendered like the
    start (by date for an all-day start, by time otherwise). *)
Theorem C10_default_end_is_start_plus_one_hour input :
  truthy_string (in_endTime input) = None ->
  truthy_string (in_duration input) = None ->
  (forall timezone startDate,
     endDate input timezone startDate = inr (startDate + 3600000)) /\
  (forall startParsed,
     let timezone :=
       or_string (Some (normalizeTimezone DEFAULT_TIMEZONE (in_timeZone input)))
                 DEFAULT_TIMEZONE in
     parse (in_startTime input) None (Some timezone) = inr startParsed ->
     exists req,
       request input = inr req /\
       ge_start (requestBody req) =
       render (dateTime startParsed) (Some timezone) (isAllDay startParsed) /\
       ge_end (requestBody req) =
       render (dateTime startParsed + 3600000) (Some timezone)
              (isAllDay startParsed)).
Proof.
  intros Hend Hdur.
  assert (E : forall timezone startDate,
             endDate input timezone startDate = inr (startDate + 3600000)).
  { intros timezone startDate. unfold endDate, createEvent_endDate.
    rewrite Hend, Hdur. unfold calculateEndTime. rewrite default_duration.
    cbn; unfold addHours; f_equal; lia. }
  split; [exact E|].
  intros startParsed timezone Hparse.
  unfold request, createEvent_request. fold timezone.
  unfold getDefaultTimezone. fold timezone. fold parse. rewrite Hparse.
  fold endDate. rewrite E.
  eexists; split; [reflexivity|]. split; reflexivity.
Qed.

End CreateEvent.

(** C10 on an input whose duration is the empty string. *)
Lemma C10_witness :
  let input :=
    CalendarService.mkCreateEventInput
      "Stand-up" None None "tomorrow at 2pm" None (Some "") None None None
      None None None in
  CalendarService.createEvent_endDate
    "Asia/Seoul" 0 (fun _ _ => [DateParser.mkChronoResult 50400000 true false])
    (fun d _ => d) input "Asia/Seoul" 50400000 = inr 54000000.
Proof.
  exact (proj1 (C10_default_end_is_start_plus_one_hour
                  "Asia/Seoul" 0
                  (fun _ _ => [DateParser.mkChronoResult 50400000 true false])
                  (fun d _ => d) (fun _ => "1970-01-01")
                  (fun _ _ => "1970-01-01T14:00:00+00:00")
                  (CalendarService.mkCreateEventInput
                     "Stand-up" None None "tomorrow at 2pm" None (Some "")
                     None None None None None None)
                  eq_refl eq_refl) "Asia/Seoul" 50400000).
Defined.


(** *** The scenario of the design document

    Initialize with no stored token, exchange a valid code, ask for the
    client: the service ends authenticated, the store holds the record
    with the returned expiry, and no refresh was requested. *)
Example scenario_exchange_then_acquire :
  let w := Sample.world_at 900000 Absent (inr Sample.refreshed) in
  let '(r1, s1, w1) := run initialize fresh_service w in
  let '(r2, s2, w2) := run (exchangeCode "validcode") s1 w1 in
  let '(r3, s3, w3) := run getClient s2 w2 in
  r1 = inr tt /\ isAuthenticated s1 = false /\
  r2 = inr tt /\ isAuthenticated s2 = true /\
  tokens_json w2 =
  Present (Document (Some (mkOAuthTokens
                             "access-0" (Some "refresh-0")
                             "https://www.googleapis.com/auth/calendar"
                             "Bearer" 4600000))) /\
  (exists client, r3 = inr (Some client)) /\
  count_calls is_refresh w3 = 0%nat.
Proof. cbv zeta. cbn. repeat split; try reflexivity. eexists; reflexivity. Qed.

(* ================================================================== *)
(** ** Further properties of [AuthService] *)

(** Case analysis on everything a run branches on. *)
Ltac branch :=
  repeat (cbn -[needsRefresh clientConfig];
          match goal with
          | |- context [JSON_parse ?c] => destruct c
          | |- context [match ?x with _ => _ end] =>
              lazymatch x with
              | context [run] => fail
              | context [advance] => fail
              | context [match _ with _ => _ end] => fail
              | _ => destruct x eqn:?
              end
          end).

(** X1: no method of the service sets the client back to [null] or the
    initialized flag back to [false], and every method leaves an
    initialized service with a client; so once [initialize] has
    succeeded the client is there for good. *)
Theorem X1_client_is_never_dropped code :
  preserves_client initialize /\ preserves_client getClient /\
  preserves_client (exchangeCode code) /\ preserves_client getStatus /\
  preserves_client clearTokens /\ preserves_client generateAuthUrl.
Proof.
  unfold preserves_client.
  repeat split; destruct s as [cl cr tk ini];
    unfold initialize, getClient, exchangeCode, getStatus, clearTokens,
      generateAuthUrl, handleTokenRefresh, saveTokens, loadCredentials,
      loadTokens, createOAuth2Client, toISOString;
    branch; cbn in *; intros; try congruence; try discriminate; auto.
Qed.

(** X2: [initialize] is idempotent once it has succeeded: the service is
    then initialized, and a further [initialize] reads no file and
    changes nothing.  A failed [initialize] on a service that was not
    initialized leaves it uninitialized, so the next call reads the
    files again. *)
Theorem X2_initialize_idempotent s w :
  let '(r, s1, w1) := run initialize s w in
  match r with
  | inr _ => initialized s1 = true /\ run initialize s1 w1 = (inr tt, s1, w1)
  | inl _ => initialized s = false /\ initialized s1 = false /\
             oauth2Client s1 = oauth2Client s
  end.
Proof.
  destruct s as [cl cr tk ini].
  unfold initialize, loadCredentials, loadTokens, createOAuth2Client.
  branch; cbn in *; repeat split; auto; try congruence.
Qed.

(** X3: on a service that holds no token record, as at the first
    authorization, [exchangeCode] is all or nothing.  When it rejects,
    the service and the token file are as before.  When it resolves, the
    provider answered with a non-empty access token, and the record
    built from the answer (scope and token type defaulted, expiry
    defaulted to one hour from now) is in the token file, in memory and
    in the client; the service is then authenticated.  (On a service
    that holds a record the ['tokens'] listener has a record to update
    and saves it beside the caller; that case is left out here.) *)
Theorem X3_exchangeCode_all_or_nothing code s w :
  tokens s = None ->
  let '(r, s', w') := run (exchangeCode code) s w in
  match r with
  | inl _ => s' = s /\ tokens_json w' = tokens_json w
  | inr _ =>
      exists c answer at_,
        oauth2Client s = Some c /\
        idp_token w code = inr answer /\
        truthy_string (cred_access_token answer) = Some at_ /\
        let t := oauthTokens at_ answer (clock w) in
        tokens s' = Some t /\
        tokens_json w' = Present (Document (Some t)) /\
        oauth2Client s' = Some (setCredentials c t) /\
        isAuthenticated s' = true /\
        access_token t = at_ /\
        (truthy_number (cred_expiry_date answer) = None ->
         expiry_date t = clock w + 3600000) /\
        (truthy_string (cred_token_type answer) = None ->
         token_type t = "Bearer")
  end.
Proof.
  destruct s as [cl cr tk ini]. cbn [tokens]. intros ->.
  unfold exchangeCode, saveTokens.
  branch; cbn in *; auto.
  all: try (do 3 eexists; repeat split; eauto;
            unfold or_number, or_string; intros H; rewrite H; reflexivity).
Qed.



(** X5: [clearTokens] never rejects.  It leaves the service without a
    token record (so not authenticated) and with its credentials and
    initialized flag as before; it asks the provider to revoke exactly
    when the service holds a client; the token file is gone when
    [unlink] did not fail; and a second [clearTokens] leaves the service
    as the first one did. *)
Theorem X5_clearTokens_always_clears s w :
  let '(r, s1, w1) := run clearTokens s w in
  r = inr tt /\
  tokens s1 = None /\ isAuthenticated s1 = false /\
  credentials s1 = credentials s /\ initialized s1 = initialized s /\
  count_calls is_provider_call w1 =
  ((match oauth2Client s with Some _ => 1 | None => 0 end)
   + count_calls is_provider_call w)%nat /\
  count_calls is_refresh w1 = count_calls is_refresh w /\
  (unlink_fault w = None -> tokens_json w1 = Absent) /\
  snd (fst (run clearTokens s1 w1)) = s1.
Proof.
  destruct s as [cl cr tk ini]. unfold clearTokens.
  branch; cbn in *; repeat split; auto; try congruence.
Qed.

(** X6: a [getClient] that runs on its own, no other call of the service
    running between its steps, resolves only with a client and only on
    an authenticated service: when it resolves, the value is the client
    the service holds, the service is initialized and it holds a token
    record.  (With a [clearTokens] between its steps it resolves on a
    service without a record, see X12.) *)
Theorem X6_getClient_resolves_authenticated s w :
  let '(r, s', w') := run getClient s w in
  forall x, r = inr x ->
    exists c, x = Some c /\ oauth2Client s' = Some c /\
              initialized s' = true /\ isAuthenticated s' = true.
Proof.
  destruct s as [cl cr tk ini].
  unfold getClient, initialize, handleTokenRefresh, saveTokens,
    loadCredentials, loadTokens, createOAuth2Client, generateAuthUrl.
  branch; cbn in *; intros x Hx; try discriminate;
    injection Hx as <-; eexists; repeat split; eauto.
Qed.

(** X7: a successful refresh is not repeated.  When the token is inside
    the refresh window, the provider answers with an expiry more than
    five minutes ahead and the record can be saved, the first
    [getClient] sends one refresh request and stores the new expiry, and
    a second [getClient] at the same time sends none; both resolve with
    the client. *)
Theorem X7_refresh_once c cr t w answer e :
  let s := mkAuthService (Some c) cr (Some t) true in
  needsRefresh (clock w) s = true ->
  idp_refresh w = inr answer ->
  cred_expiry_date answer = Some e -> e <> 0 -> clock w < e - 300000 ->
  data_dir w = true -> write_fault w = None ->
  let '(r1, s1, w1) := run getClient s w in
  let '(r2, s2, w2) := run getClient s1 w1 in
  r1 = inr (Some c) /\ r2 = inr (Some c) /\
  tokens s1 = Some (updated t answer) /\
  expiry_date (updated t answer) = e /\
  s2 = s1 /\
  count_calls is_refresh w1 = S (count_calls is_refresh w) /\
  count_calls is_refresh w2 = S (count_calls is_refresh w).
Proof.
  intros s Hwin Hidp He Hne Hlt Hdir Hwf. subst s.
  assert (Hexp : expiry_date (updated t answer) = e).
  { unfold updated. destruct (truthy_string (cred_refresh_token answer));
      cbn; unfold or_number; rewrite He; destruct e; try reflexivity;
      contradiction. }
  rewrite run_getClient_ready, Hwin, Hidp.
  unfold saveTokens. cbn -[getClient updated]. rewrite Hdir.
  cbn -[getClient updated]. rewrite Hwf. cbn -[getClient updated].
  unfold set_tokens. cbn [oauth2Client credentials tokens initialized].
  rewrite run_getClient_ready. cbn -[needsRefresh updated].
  replace (needsRefresh (clock w) _) with false.
  - repeat split; auto.
  - symmetry. unfold needsRefresh. cbn [tokens]. rewrite Hexp.
    destruct (Z.eqb_spec e 0); [contradiction|].
    rewrite Z.geb_leb. apply Z.leb_gt. unfold buffer. lia.
Qed.

(** X7 on the sample service. *)
Lemma X7_witness :
  let s := Sample.service_until 1000000 in
  let w := Sample.world_at 900000 (Sample.stored_until 1000000)
                           (inr Sample.refreshed) in
  let '(r1, s1, w1) := run getClient s w in
  let '(r2, s2, w2) := run getClient s1 w1 in
  count_calls is_refresh w1 = 1%nat /\ count_calls is_refresh w2 = 1%nat.
Proof.
  pose proof (X7_refresh_once
                (Sample.client_with (Some (Sample.record_until 1000000)))
                (Some Sample.creds) (Sample.record_until 1000000)
                (Sample.world_at 900000 (Sample.stored_until 1000000)
                                 (inr Sample.refreshed))
                Sample.refreshed 5000000
                eq_refl eq_refl eq_refl) as H.
  cbv zeta in H. cbn in H.
  assert (Hne : 5000000 <> 0) by discriminate.
  assert (Hlt : 900000 < 5000000 - 300000) by lia.
  destruct (H Hne Hlt eq_refl eq_refl) as (_ & _ & _ & _ & _ & H1 & H2).
  split; assumption.
Defined.

(** X8: the refresh window only opens with time.  A service without a
    token record, or with a record without expiry, always needs a
    refresh; and a service that needs a refresh at some time needs it at
    every later time. *)
Theorem X8_needsRefresh_monotone s t1 t2 :
  (tokens s = None -> needsRefresh t1 s = true) /\
  (forall t, tokens s = Some t -> expiry_date t = 0 ->
             needsRefresh t1 s = true) /\
  (needsRefresh t1 s = true -> t1 <= t2 -> needsRefresh t2 s = true).
Proof.
  unfold needsRefresh. repeat split.
  - intros ->. reflexivity.
  - intros t -> ->. reflexivity.
  - destruct (tokens s) as [t|]; [|reflexivity].
    destruct (expiry_date t =? 0); [reflexivity|].
    rewrite !Z.geb_leb, !Z.leb_le. lia.
Qed.

(** X9: handling the same answer of the provider twice is the same as
    handling it once.  (The answer reaches [handleTokenRefresh] both
    through the ['tokens'] listener and through [getClient].)  After a
    first [handleTokenRefresh] that resolved, a second one with the same
    answer leaves the service and the content of the token file as they
    are. *)
Theorem X9_same_answer_twice answer s w :
  (forall t, updated (updated t answer) answer = updated t answer) /\
  let '(r1, s1, w1) := run (handleTokenRefresh answer) s w in
  let '(r2, s2, w2) := run (handleTokenRefresh answer) s1 w1 in
  r1 = inr tt -> s2 = s1 /\ tokens_json w2 = tokens_json w1.
Proof.
  assert (Hidem : forall t, updated (updated t answer) answer = updated t answer).
  { intros t. unfold updated, or_string, or_number.
    destruct (truthy_string (cred_refresh_token answer));
      destruct (truthy_string (cred_access_token answer));
      destruct (truthy_number (cred_expiry_date answer)); reflexivity. }
  split; [exact Hidem|].
  rewrite run_handleTokenRefresh.
  destruct s as [cl cr [t|] ini]; cbn [tokens].
  - pose proof (saveTokens_saved (updated t answer)
                  (mkAuthService cl cr (Some t) ini) w) as H.
    destruct (run (saveTokens (updated t answer)) _ w) as [[r1 s1] w1].
    inversion H; subst.
    + rewrite run_handleTokenRefresh. cbn [tokens set_tokens]. rewrite Hidem.
      pose proof (saveTokens_saved (updated t answer)
                    (mkAuthService cl cr (Some (updated t answer)) ini) w1) as H'.
      cbn [set_tokens oauth2Client credentials initialized].
      destruct (run (saveTokens (updated t answer)) _ w1) as [[r2 s2] w2].
      inversion H'; subst; intros _; split; auto; congruence.
    + destruct (run (handleTokenRefresh answer) _ w1) as [[r2 s2] w2].
      discriminate.
  - rewrite run_handleTokenRefresh. cbn. auto.
Qed.

(** X9 on the sample service. *)
Lemma X9_witness :
  let s := Sample.service_until 1000000 in
  let w := Sample.world_at 900000 (Sample.stored_until 1000000)
                           (inr Sample.refreshed) in
  let '(r1, s1, w1) := run (handleTokenRefresh Sample.refreshed) s w in
  let '(r2, s2, w2) := run (handleTokenRefresh Sample.refreshed) s1 w1 in
  s2 = s1 /\ tokens_json w2 = tokens_json w1.
Proof.
  exact (proj2 (X9_same_answer_twice Sample.refreshed
                  (Sample.service_until 1000000)
                  (Sample.world_at 900000 (Sample.stored_until 1000000)
                                   (inr Sample.refreshed)))
               eq_refl).
Defined.

(** X10: [getStatus] throws only on an expiry outside the range of
    dates.  Otherwise it returns the authenticated flag and the
    needs-refresh flag of the service, the expiry when there is a
    non-zero one, and an authorization URL exactly when the service is
    not authenticated and a client exists or can be built; a failure to
    build the URL (no credentials, no client section) is swallowed and
    only leaves the URL out. *)
Theorem X10_getStatus_snapshot s w :
  match tokens s with
  | Some t => Z.abs (expiry_date t) <= 8640000000000000
  | None => True
  end ->
  exists st,
    fst (fst (run getStatus s w)) = inr st /\
    st_isAuthenticated st = isAuthenticated s /\
    st_needsRefresh st = needsRefresh (clock w) s /\
    st_expiresAt st =
    match tokens s with
    | Some t => if expiry_date t =? 0 then None else Some (expiry_date t)
    | None => None
    end /\
    (isAuthenticated s = true -> st_authUrl st = None) /\
    (forall c, oauth2Client s = Some c -> isAuthenticated s = false ->
               st_authUrl st = Some (idp_auth_url w c)) /\
    (oauth2Client s = None ->
     match credentials s with
     | Some creds => clientConfig creds = None
     | None => True
     end ->
     st_authUrl st = None) /\
    (oauth2Client s = None ->
     forall creds cfg, credentials s = Some creds ->
                       clientConfig creds = Some cfg ->
                       st_authUrl st <> None).
Proof.
  destruct s as [cl cr tk ini]. intros Hrange.
  unfold getStatus, generateAuthUrl, createOAuth2Client, toISOString.
  cbn -[needsRefresh clientConfig] in *.
  destruct tk as [t|].
  - apply Z.leb_le in Hrange.
    destruct cl as [c|]; cbn -[needsRefresh clientConfig];
      destruct (expiry_date t =? 0) eqn:E0;
      cbn -[needsRefresh clientConfig]; rewrite ?Hrange;
      cbn -[needsRefresh clientConfig].
    1,2: eexists; repeat split; intros; cbn in *; try discriminate; try congruence; auto.
    all: destruct cr as [creds|]; cbn -[needsRefresh clientConfig];
      [destruct (clientConfig creds) eqn:Ecfg|];
      cbn -[needsRefresh clientConfig];
      eexists; repeat split; intros; cbn in *; try discriminate; try congruence; auto.
  - destruct cl as [c|]; cbn -[needsRefresh clientConfig].
    + eexists; repeat split; intros; cbn in *; try discriminate; try congruence; auto.
    + destruct cr as [creds|]; cbn -[needsRefresh clientConfig];
        [destruct (clientConfig creds) eqn:Ecfg|];
        cbn -[needsRefresh clientConfig];
        eexists; repeat split; intros; cbn in *; try discriminate; try congruence; auto.
Qed.

(** X10 on a service that was never initialized: the status says not
    authenticated, refresh needed, and has neither expiry nor URL. *)
Lemma X10_witness :
  exists st,
    fst (fst (run getStatus fresh_service
                  (Sample.world_at 900000 Absent (inr Sample.refreshed))))
    = inr st /\
    st_isAuthenticated st = false /\ st_needsRefresh st = true /\
    st_expiresAt st = None /\ st_authUrl st = None.
Proof.
  destruct (X10_getStatus_snapshot fresh_service
              (Sample.world_at 900000 Absent (inr Sample.refreshed)) I)
    as (st & H1 & H2 & H3 & H4 & _ & _ & H7 & _).
  exists st. repeat split; auto. apply H7; [reflexivity|exact I].
Defined.

(** X11: the token file survives a restart.  After a [saveTokens] that
    resolved, a new service initializing on the same files (with a
    credential file that has a client section) holds exactly the saved
    record, has handed it to its client, and is authenticated. *)
Theorem X11_saved_record_is_reloaded t s w creds cfg :
  credentials_json w = Present (Document (Some creds)) ->
  clientConfig creds = Some cfg ->
  let '(r1, s1, w1) := run (saveTokens t) s w in
  r1 = inr tt ->
  let '(r2, s2, w2) := run initialize fresh_service w1 in
  r2 = inr tt /\ tokens s2 = Some t /\ isAuthenticated s2 = true /\
  (exists client, oauth2Client s2 = Some client /\
                  oa_credentials client = Some t).
Proof.
  intros Hc Hcfg.
  unfold saveTokens, initialize, loadCredentials, loadTokens,
    createOAuth2Client.
  cbn -[clientConfig].
  destruct (data_dir w); cbn -[clientConfig].
  - destruct (write_fault w); cbn -[clientConfig]; [discriminate|].
    intros _. rewrite Hc. cbn -[clientConfig]. rewrite Hcfg. cbn.
    repeat split; auto. eexists; split; reflexivity.
  - destruct (mkdir_fault w); cbn -[clientConfig]; [discriminate|].
    destruct (write_fault w); cbn -[clientConfig]; [discriminate|].
    intros _. rewrite Hc. cbn -[clientConfig]. rewrite Hcfg. cbn.
    repeat split; auto. eexists; split; reflexivity.
Qed.

(** X11 on the sample world. *)
Lemma X11_witness :
  let w := Sample.world_at 900000 Absent (inr Sample.refreshed) in
  let t := Sample.record_until 1000000 in
  let '(r1, s1, w1) := run (saveTokens t) fresh_service w in
  let '(r2, s2, w2) := run initialize fresh_service w1 in
  r2 = inr tt /\ tokens s2 = Some t /\ isAuthenticated s2 = true /\
  (exists client, oauth2Client s2 = Some client /\
                  oa_credentials client = Some t).
Proof.
  exact (X11_saved_record_is_reloaded
           (Sample.record_until 1000000) fresh_service
           (Sample.world_at 900000 Absent (inr Sample.refreshed))
           Sample.creds Sample.cfg eq_refl eq_refl eq_refl).
Defined.

(** X12: an answer that arrives after [clearTokens] does not bring the
    record back.  A [getClient] is suspended on its refresh request,
    [clearTokens] runs, then the provider answers: the suspended call
    writes nothing and leaves the service without a token record, yet it
    resolves with the client (whose credentials [clearTokens] dropped). *)
Theorem X12_late_answer_after_clear c cr t w answer :
  let s := mkAuthService (Some c) cr (Some t) true in
  needsRefresh (clock w) s = true ->
  let '(task, s0, w0) := advance getClient s w in
  let '(r, s1, w1) := run clearTokens s0 w0 in
  let '(task', s2, w2) := resume task s1 (set_idp_refresh (inr answer) w1) in
  awaits RefreshAccessToken task /\
  task' = Finished (inr (Some (dropCredentials c))) /\
  tokens s2 = None /\ isAuthenticated s2 = false /\
  tokens_json w2 = tokens_json w1 /\
  count_calls is_token_write w2 = count_calls is_token_write w.
Proof.
  intros s Hwin. subst s. rewrite advance_getClient_ready by exact Hwin.
  unfold clearTokens. cbn.
  destruct (unlink_fault w); cbn.
  - repeat split; reflexivity.
  - destruct (tokens_json w); cbn; repeat split; reflexivity.
Qed.

(** X12 on the sample service. *)
Lemma X12_witness :
  let s := Sample.service_until 1000000 in
  let w := Sample.world_at 900000 (Sample.stored_until 1000000)
                           (inr Sample.refreshed) in
  let '(task, s0, w0) := advance getClient s w in
  let '(r, s1, w1) := run clearTokens s0 w0 in
  let '(task', s2, w2) :=
    resume task s1 (set_idp_refresh (inr Sample.refreshed) w1) in
  awaits RefreshAccessToken task /\
  task' = Finished (inr (Some (dropCredentials
                                 (Sample.client_with
                                    (Some (Sample.record_until 1000000)))))) /\
  tokens s2 = None /\ isAuthenticated s2 = false /\
  tokens_json w2 = tokens_json w1 /\
  count_calls is_token_write w2 = count_calls is_token_write w.
Proof.
  exact (X12_late_answer_after_clear
           (Sample.client_with (Some (Sample.record_until 1000000)))
           (Some Sample.creds) (Sample.record_until 1000000)
           (Sample.world_at 900000 (Sample.stored_until 1000000)
                            (inr Sample.refreshed))
           Sample.refreshed eq_refl).
Defined.

(* ================================================================== *)
(** ** Further properties of the error handler and the tools *)

(** X14: the tool result of a [CalendarError] determines the error: two
    [CalendarError]s that [createErrorResult] renders alike have the same
    code and the same message. *)
Theorem X14_tool_error_identifies_code m1 c1 m2 c2 :
  createErrorResult (CalendarError m1 c1) =
  createErrorResult (CalendarError m2 c2) ->
  c1 = c2 /\ m1 = m2.
Proof.
  unfold createErrorResult, tagged.
  destruct c1, c2; cbn; intros H; try discriminate H;
    (split; [reflexivity|congruence]).
Qed.

(** X14 on two equal errors. *)
Lemma X14_witness :
  PARSE_ERROR = PARSE_ERROR /\ "Failed to load tokens" = "Failed to load tokens".
Proof.
  exact (X14_tool_error_identifies_code
           "Failed to load tokens" PARSE_ERROR
           "Failed to load tokens" PARSE_ERROR eq_refl).
Defined.

(** X15: [withErrorHandling] never rejects.  Whatever the operation does,
    the wrapper resolves: with the success result around the value of an
    operation that resolved, with the error result of the exception of
    one that rejected; service and world are as the operation left
    them. *)
Theorem X15_withErrorHandling_never_rejects {A} (operation : prog A) s w :
  let '(r, s', w') := run operation s w in
  run (withErrorHandling operation) s w =
  (inr match r with
       | inr data => createSuccessResult data
       | inl e => ToolFailure (createErrorResult e)
       end, s', w').
Proof.
  unfold withErrorHandling. rewrite run_try_catch, run_bind.
  destruct (run operation s w) as [[[e|a] s'] w']; reflexivity.
Qed.


(** X3 on a code the provider accepts: the record is stored with the
    provider's expiry and the default token type. *)
Lemma X3_witness :
  let s := mkAuthService (Some (Sample.client_with None)) (Some Sample.creds)
                         None true in
  let w := Sample.world_at 900000 Absent (inr Sample.refreshed) in
  exists t,
    tokens (snd (fst (run (exchangeCode "validcode") s w))) = Some t /\
    token_type t = "Bearer".
Proof.
  intros s w.
  destruct (X3_exchangeCode_all_or_nothing "validcode" s w eq_refl)
    as (c & answer & at_ & _ & Ha & _ & Ht & _ & _ & _ & _ & _ & Hty).
  injection Ha as <-.
  eexists. split; [exact Ht|]. exact (Hty eq_refl).
Defined.

(** X5 on an authenticated service whose token file exists. *)
Lemma X5_witness :
  tokens_json
    (snd (run clearTokens (Sample.service_until 1000000)
              (Sample.world_at 900000 (Sample.stored_until 1000000)
                               (inr Sample.refreshed)))) = Absent.
Proof.
  destruct (X5_clearTokens_always_clears
              (Sample.service_until 1000000)
              (Sample.world_at 900000 (Sample.stored_until 1000000)
                               (inr Sample.refreshed)))
    as (_ & _ & _ & _ & _ & _ & _ & H & _).
  exact (H eq_refl).
Defined.

(** X6 on a service whose record is valid for long enough. *)
Lemma X6_witness :
  exists c,
    oauth2Client (Sample.service_until 5000000) = Some c /\
    isAuthenticated (Sample.service_until 5000000) = true.
Proof.
  destruct (X6_getClient_resolves_authenticated
              (Sample.service_until 5000000)
              (Sample.world_at 900000 (Sample.stored_until 5000000)
                               (inr Sample.refreshed))
              _ eq_refl)
    as (c & _ & Hc & _ & Ha).
  exists c. split; [exact Hc | exact Ha].
Defined.

(** X8 on a record inside its refresh window. *)
Lemma X8_witness :
  needsRefresh 2000000 (Sample.service_until 1000000) = true.
Proof.
  refine (proj2 (proj2 (X8_needsRefresh_monotone
                          (Sample.service_until 1000000) 700000 2000000))
            eq_refl _).
  lia.
Defined.


(* ================================================================== *)
(** ** Further properties of the date parser *)

Module RegexFacts.
Import Regex.

(** The greedy star over a character class, one character at a time. *)
Lemma m_star_nil a total cs k : m (Star a) total "" cs k = k "" cs.
Proof. reflexivity. Qed.

Lemma m_star_chr f total c s cs k :
  m (Star (Chr f)) total (String c s) cs k =
  if f c
  then match m (Star (Chr f)) total s cs k with
       | Some res => Some res
       | None => k (String c s) cs
       end
  else k (String c s) cs.
Proof.
  cbn. destruct (f c); [|reflexivity].
  rewrite Nat.leb_refl. reflexivity.
Qed.

(** A decimal digit is neither white space nor a letter. *)
Lemma digit_not_space c : digit c = true -> space c = false.
Proof.
  destruct c as [[] [] [] [] [] [] [] []]; cbn; intros H;
    try discriminate H; reflexivity.
Qed.

Lemma digit_not_letter c p :
  digit c = true -> digit p = false ->
  Ascii.eqb (to_upper c) (to_upper p) = false.
Proof.
  intros Hc Hp.
  assert (Hup : to_upper c = c)
    by (destruct c as [[] [] [] [] [] [] [] []]; cbn in *;
        try discriminate Hc; reflexivity).
  rewrite Hup. apply Ascii.eqb_neq. intros ->.
  destruct p as [[] [] [] [] [] [] [] []]; cbn in *;
    try discriminate Hc; try discriminate Hp.
Qed.

End RegexFacts.

Module DateFacts.
Import Regex RegexFacts DateParser.

Lemma parseInt_nonneg s : 0 <= parseInt s.
Proof.
  unfold parseInt.
  match goal with |- 0 <= ?f 0 s => set (go := f) end.
  assert (H : forall s acc, 0 <= acc -> 0 <= go acc s).
  { clear s. induction s as [|c s IH]; intros acc Hacc;
      cbn -[Z.mul Z.add Z.of_nat]; [exact Hacc|].
    destruct (digit c); [|exact Hacc]. apply IH.
    apply Z.add_nonneg_nonneg; [lia|apply Nat2Z.is_nonneg]. }
  apply H. lia.
Qed.

(** A pattern that starts with a digit run finds nothing to start from
    at the end of the input or at a character that is no digit. *)
Lemma m_digits_first i rest total s cs k :
  match s with
  | EmptyString => True
  | String c _ => digit c = false
  end ->
  m (Seq (Group i digits) rest) total s cs k = None.
Proof.
  destruct s as [|c s]; cbn; [reflexivity|]. intros ->. reflexivity.
Qed.

Lemma exec_from_no_digit i rest total s :
  no_digit s = true ->
  exec_from (Seq (Group i digits) rest) total s = None.
Proof.
  induction s as [|c s IH]; intros H.
  - cbn. reflexivity.
  - cbn in H. apply andb_true_iff in H as [Hc Hs].
    apply negb_true_iff in Hc.
    cbn [exec_from]. rewrite m_digits_first by exact Hc. apply IH, Hs.
Qed.

Lemma m_seq_bol r total s cs k :
  m (Seq Bol r) total s cs k =
  if Nat.eqb (String.length s) total then m r total s cs k else None.
Proof. reflexivity. Qed.

Lemma exec_number_no_digit s :
  no_digit s = true -> exec pattern_number s = None.
Proof.
  intros H. unfold exec, pattern_number.
  generalize (String.length s) as total.
  induction s as [|c s IH]; intros total.
  - cbn. destruct total; reflexivity.
  - cbn in H. apply andb_true_iff in H as [Hc Hs].
    apply negb_true_iff in Hc.
    cbn [exec_from].
    replace (m (Seq Bol (Seq (Group 1 digits) Eol)) total (String c s) []
               (fun _ cs => Some cs)) with (@None captures).
    + apply IH, Hs.
    + rewrite m_seq_bol, m_digits_first by exact Hc.
      destruct (Nat.eqb _ _); reflexivity.
Qed.

(** X18: a duration text without any decimal digit is rejected:
    [parseDuration] throws [INVALID_DURATION] with the text quoted in the
    message (so is the empty text, and so are durations written in
    words). *)
Theorem X18_parseDuration_rejects_no_digit input :
  no_digit input = true ->
  parseDuration input =
  inl (CalendarError ("Could not parse duration from: " ++ dquote ++ input ++ dquote)
                     INVALID_DURATION).
Proof.
  intros H. unfold parseDuration, exec.
  unfold pattern_combined, pattern_hours, pattern_minutes.
  rewrite !exec_from_no_digit by exact H.
  cbn [Z.eqb andb].
  fold (exec pattern_number input). rewrite exec_number_no_digit by exact H.
  reflexivity.
Qed.

Lemma parseDuration_shape input d :
  parseDuration input = inr d ->
  0 <= hours d /\ 0 <= minutes d /\ totalMinutes d = hours d * 60 + minutes d.
Proof.
  unfold parseDuration, group_number.
  destruct (exec pattern_combined input) as [cs|].
  - intros H; injection H as <-. cbn. repeat split; auto using parseInt_nonneg.
  - set (h := match exec pattern_hours input with Some cs => _ | None => 0 end).
    set (mi := match exec pattern_minutes input with Some cs => _ | None => 0 end).
    assert (Hh : 0 <= h) by (subst h; destruct (exec pattern_hours input); [apply parseInt_nonneg|lia]).
    assert (Hm : 0 <= mi) by (subst mi; destruct (exec pattern_minutes input); [apply parseInt_nonneg|lia]).
    destruct ((h =? 0) && (mi =? 0))%bool.
    + destruct (exec pattern_number input); [|discriminate].
      intros H; injection H as <-. cbn. repeat split; auto using parseInt_nonneg.
    + intros H; injection H as <-. cbn. repeat split; auto.
Qed.

(** X17: every duration [parseDuration] returns is well formed: hours,
    minutes and the total are not negative, the total is at least as
    large as each of the two, and it is zero only when both are. *)
Theorem X17_parseDuration_invariant input d :
  parseDuration input = inr d ->
  0 <= hours d /\ 0 <= minutes d /\
  hours d <= totalMinutes d /\ minutes d <= totalMinutes d /\
  (totalMinutes d = 0 <-> hours d = 0 /\ minutes d = 0).
Proof.
  intros H. destruct (parseDuration_shape input d H) as (Hh & Hm & Ht).
  repeat split; lia.
Qed.

(** X19: [calculateEndTime] on a duration text throws exactly when
    [parseDuration] throws, with the same error.  Otherwise, when the
    start is an instant of a [Date] (at most 8.64e15 ms from the epoch)
    and the start plus the total minutes of the parsed duration still
    is one, the end is that instant, not before the start.  (Within that range every number
    involved is below 2^53 and the arithmetic of the source is exact.) *)
Theorem X19_calculateEndTime_adds_total start text :
  match calculateEndTime start (inl text), parseDuration text with
  | inr e, inr d =>
      - 8640000000000000 <= start ->
      start + totalMinutes d * 60000 <= 8640000000000000 ->
      e = start + totalMinutes d * 60000 /\ start <= e /\
      totalMinutes d < 2 ^ 53
  | inl e, inl e' => e = e'
  | _, _ => False
  end.
Proof.
  unfold calculateEndTime.
  pose proof (parseDuration_shape text) as Hinv.
  destruct (parseDuration text) as [e|d]; [reflexivity|].
  destruct (Hinv d eq_refl) as (Hh & Hm & Ht).
  unfold addHours, addMinutes. intros Hlo Hhi.
  assert (2 ^ 53 = 9007199254740992) by reflexivity.
  destruct (Z.gtb_spec (hours d) 0); destruct (Z.gtb_spec (minutes d) 0); lia.
Qed.

(** The digit run of a pattern on an input made of digits only. *)
Lemma star_digit_all total s cs k res :
  all_digits s = true -> k "" cs = Some res ->
  m (Star (Chr digit)) total s cs k = Some res.
Proof.
  induction s as [|c s IH]; intros Hs Hk.
  - rewrite m_star_nil. exact Hk.
  - cbn in Hs. apply andb_true_iff in Hs as [Hc Hs].
    rewrite m_star_chr, Hc, IH by assumption. reflexivity.
Qed.

Lemma star_digit_none total s cs k :
  all_digits s = true ->
  (forall s' cs', all_digits s' = true -> k s' cs' = None) ->
  m (Star (Chr digit)) total s cs k = None.
Proof.
  induction s as [|c s IH]; intros Hs Hk.
  - rewrite m_star_nil. apply Hk. reflexivity.
  - pose proof Hs as Hs'.
    cbn in Hs. apply andb_true_iff in Hs as [Hc Hs].
    rewrite m_star_chr, Hc, IH by assumption. apply Hk. exact Hs'.
Qed.

Lemma substring_all s : substring 0 (String.length s) s = s.
Proof. induction s as [|c s IH]; cbn; [reflexivity|]. rewrite IH. reflexivity. Qed.

Lemma m_group_digits i total s cs k :
  m (Group i digits) total s cs k =
  match s with
  | EmptyString => None
  | String c s' =>
      if digit c
      then m (Star (Chr digit)) total s' cs
             (fun s'' cs' =>
                k s'' ((i, substring 0 (String.length s - String.length s'') s) :: cs'))
      else None
  end.
Proof. destruct s as [|c s]; reflexivity. Qed.

Lemma m_seq a b total s cs k :
  m (Seq a b) total s cs k = m a total s cs (fun s' cs' => m b total s' cs' k).
Proof. reflexivity. Qed.

(** On an input of digits only, white space matches nothing and no unit
    letter follows. *)
Lemma spaces_skip total s cs k :
  all_digits s = true -> m spaces total s cs k = k s cs.
Proof.
  unfold spaces. destruct s as [|c s]; intros H; [apply m_star_nil|].
  cbn in H. apply andb_true_iff in H as [Hc _].
  rewrite m_star_chr, (digit_not_space c Hc). reflexivity.
Qed.

Lemma hour_unit_none total s cs k :
  all_digits s = true -> m hour_unit total s cs k = None.
Proof.
  destruct s as [|c s]; intros H; [reflexivity|].
  cbn in H. apply andb_true_iff in H as [Hc _].
  unfold hour_unit. cbn -[to_upper Ascii.eqb].
  rewrite !(digit_not_letter c "h" Hc eq_refl). reflexivity.
Qed.

Lemma minute_unit_none total s cs k :
  all_digits s = true -> m minute_unit total s cs k = None.
Proof.
  destruct s as [|c s]; intros H; [reflexivity|].
  cbn in H. apply andb_true_iff in H as [Hc _].
  unfold minute_unit. cbn -[to_upper Ascii.eqb].
  rewrite !(digit_not_letter c "m" Hc eq_refl). reflexivity.
Qed.

Lemma exec_from_all_digits i tail total s :
  (forall s' cs k, all_digits s' = true -> m tail total s' cs k = None) ->
  all_digits s = true ->
  exec_from (Seq (Group i digits) tail) total s = None.
Proof.
  intros Htail. induction s as [|c s IH]; intros Hs.
  - reflexivity.
  - pose proof Hs as Hs'. cbn in Hs. apply andb_true_iff in Hs as [Hc Hs].
    cbn [exec_from]. rewrite m_seq, m_group_digits, Hc.
    rewrite star_digit_none; [apply IH, Hs|exact Hs|].
    intros s' cs' Hs''. apply Htail, Hs''.
Qed.

Lemma exec_number_all_digits s :
  all_digits s = true -> s <> "" -> exec pattern_number s = Some [(1%nat, s)].
Proof.
  intros Hs Hne. destruct s as [|c s]; [contradiction|].
  unfold exec, pattern_number. cbn [exec_from].
  rewrite m_seq_bol, Nat.eqb_refl, m_seq, m_group_digits.
  cbn in Hs. apply andb_true_iff in Hs as [Hc Hs]. rewrite Hc.
  erewrite star_digit_all; [reflexivity|exact Hs|].
  cbn [m]. rewrite Nat.sub_0_r.
  rewrite (substring_all (String c s)). reflexivity.
Qed.

(** X20: a bare decimal number is a number of hours: on a non-empty text
    of digits only, [parseDuration] returns that many hours and no
    minutes.  The number is one whose minutes do not exceed 2^53, the
    range in which the numbers of the source are exact. *)
Theorem X20_parseDuration_bare_number input :
  all_digits input = true -> input <> "" ->
  parseInt input * 60 <= 2 ^ 53 ->
  parseDuration input =
  inr (mkParsedDuration (parseInt input) 0 (parseInt input * 60)).
Proof.
  intros Hs Hne _. unfold parseDuration, exec.
  unfold pattern_combined, pattern_hours, pattern_minutes.
  rewrite !exec_from_all_digits; try exact Hs.
  - cbn [Z.eqb andb].
    fold (exec pattern_number input).
    rewrite exec_number_all_digits by assumption.
    unfold group_number. cbn [capture Nat.eqb].
    unfold or_string, truthy_string.
    destruct input as [|c s]; [contradiction|].
    f_equal. f_equal. lia.
  - intros s' cs k H. rewrite m_seq, spaces_skip by exact H.
    apply minute_unit_none, H.
  - intros s' cs k H. rewrite m_seq, spaces_skip by exact H.
    apply hour_unit_none, H.
  - intros s' cs k H. rewrite m_seq, spaces_skip by exact H.
    rewrite m_seq. apply hour_unit_none, H.
Qed.

(** General facts on the matcher. *)

Lemma all_digits_forall s : all_digits s = string_forall digit s.
Proof. induction s as [|c s IH]; cbn; [reflexivity|]. rewrite IH. reflexivity. Qed.

Lemma no_digit_forall s : no_digit s = string_forall (fun c => negb (digit c)) s.
Proof. induction s as [|c s IH]; cbn; [reflexivity|]. rewrite IH. reflexivity. Qed.

(** The matcher hands its continuation only suffixes of its input: when
    the continuation fails on every string without a digit, so does the
    match on such a string. *)
Lemma m_digit_free r :
  forall total s cs k,
    (forall s' cs', no_digit s' = true -> k s' cs' = None) ->
    no_digit s = true ->
    m r total s cs k = None.
Proof.
  induction r as [|f|a IHa b IHb|a IHa b IHb|a IHa|i a IHa| |];
    intros total s cs k Hk Hs.
  - apply Hk, Hs.
  - destruct s as [|c s]; [reflexivity|]. cbn.
    cbn in Hs. apply andb_true_iff in Hs as [_ Hs].
    destruct (f c); [apply Hk, Hs|reflexivity].
  - cbn. apply IHa; [|exact Hs]. intros s' cs' Hs'. apply IHb; assumption.
  - cbn. rewrite IHa, IHb by assumption. reflexivity.
  - cbn. generalize (String.length s) as fuel. intros fuel.
    revert s cs Hs. induction fuel as [|fuel IHf]; intros s cs Hs.
    + apply Hk, Hs.
    + rewrite IHa; [apply Hk, Hs| |exact Hs].
      intros s' cs' Hs'.
      match goal with |- (if ?b then _ else _) = _ => destruct b end;
        [apply IHf, Hs'|reflexivity].
  - cbn. apply IHa; [|exact Hs]. intros s' cs' Hs'. apply Hk, Hs'.
  - cbn. destruct (Nat.eqb _ _); [apply Hk, Hs|reflexivity].
  - cbn. destruct s; [apply Hk, Hs|reflexivity].
Qed.

(** A pattern without groups hands the captures on unchanged. *)
Lemma m_group_free r :
  group_free r = true ->
  forall total s cs k res,
    m r total s cs k = Some res -> exists s', k s' cs = Some res.
Proof.
  induction r as [|f|a IHa b IHb|a IHa b IHb|a IHa|i a IHa| |];
    intros Hg total s cs k res H; cbn in Hg.
  - eauto.
  - destruct s as [|c s]; [discriminate|]. cbn in H.
    destruct (f c); [eauto|discriminate].
  - apply andb_true_iff in Hg as [Ha Hb]. cbn in H.
    apply (IHa Ha) in H as [s' H]. apply (IHb Hb) in H. exact H.
  - apply andb_true_iff in Hg as [Ha Hb]. cbn in H.
    destruct (m a total s cs k) eqn:E.
    + injection H as <-. apply (IHa Ha) in E. exact E.
    + apply (IHb Hb) in H. exact H.
  - cbn in H. revert H. generalize (String.length s) as fuel. intros fuel.
    revert s. induction fuel as [|fuel IHf]; intros s H.
    + eauto.
    + match type of H with
      | match ?x with _ => _ end = _ => destruct x eqn:E
      end.
      * injection H as <-. apply (IHa Hg) in E as [s' E].
        match type of E with
        | (if ?b then _ else _) = _ => destruct b
        end; [apply IHf in E; exact E|discriminate].
      * eauto.
  - discriminate.
  - cbn in H. destruct (Nat.eqb _ _); [eauto|discriminate].
  - cbn in H. destruct s; [eauto|discriminate].
Qed.

(** The greedy star over a class, on a run of the class followed by a
    rest that does not start in the class. *)
Lemma star_prefix_some f total run rest cs k res :
  string_forall f run = true -> head_is f rest = false ->
  k rest cs = Some res ->
  m (Star (Chr f)) total (run ++ rest) cs k = Some res.
Proof.
  intros Hrun Hrest Hk. induction run as [|c run IH].
  - cbn [append]. destruct rest as [|c rest]; [rewrite m_star_nil; exact Hk|].
    cbn in Hrest. rewrite m_star_chr, Hrest. exact Hk.
  - cbn in Hrun. apply andb_true_iff in Hrun as [Hc Hrun].
    cbn [append]. rewrite m_star_chr, Hc, IH by exact Hrun. reflexivity.
Qed.

Lemma star_prefix_none f total run rest cs k :
  string_forall f run = true -> head_is f rest = false ->
  (forall run', string_forall f run' = true -> k (run' ++ rest) cs = None) ->
  m (Star (Chr f)) total (run ++ rest) cs k = None.
Proof.
  intros Hrun Hrest Hk. induction run as [|c run IH].
  - cbn [append]. destruct rest as [|c rest].
    + rewrite m_star_nil. apply (Hk ""). reflexivity.
    + cbn in Hrest. rewrite m_star_chr, Hrest. apply (Hk ""). reflexivity.
  - pose proof Hrun as Hrun'.
    cbn in Hrun. apply andb_true_iff in Hrun as [Hc Hrun].
    cbn [append]. rewrite m_star_chr, Hc, IH by exact Hrun.
    apply (Hk (String c run)). exact Hrun'.
Qed.

(** Durations of the form digits, spaces, unit letter. *)

Lemma dead_digits i rest : dead (Seq (Group i digits) rest).
Proof.
  intros total s cs k Hs. apply m_digits_first.
  destruct s as [|c s]; [exact I|].
  cbn in Hs. apply andb_true_iff in Hs as [Hc _]. apply negb_true_iff, Hc.
Qed.

Lemma dead_seq a b : dead b -> dead (Seq a b).
Proof.
  intros Hb total s cs k Hs. rewrite m_seq.
  apply m_digit_free; [|exact Hs]. intros s' cs' Hs'. apply Hb, Hs'.
Qed.

Lemma spaces_skip_digit total s cs k :
  head_is digit s = true -> m spaces total s cs k = k s cs.
Proof.
  unfold spaces. destruct s as [|c s]; [discriminate|]. cbn. intros Hc.
  rewrite (digit_not_space c Hc). reflexivity.
Qed.

Lemma letter_H_not_space c :
  Ascii.eqb (to_upper c) "H" = true -> space c = false /\ digit c = false /\
                                      Ascii.eqb (to_upper c) "M" = false.
Proof.
  destruct c as [[] [] [] [] [] [] [] []]; cbn; intros H;
    try discriminate H; repeat split; reflexivity.
Qed.

Lemma letter_M_not_space c :
  Ascii.eqb (to_upper c) "M" = true -> space c = false /\ digit c = false /\
                                      Ascii.eqb (to_upper c) "H" = false.
Proof.
  destruct c as [[] [] [] [] [] [] [] []]; cbn; intros H;
    try discriminate H; repeat split; reflexivity.
Qed.

Lemma space_not_letter c :
  space c = true ->
  Ascii.eqb (to_upper c) "H" = false /\ Ascii.eqb (to_upper c) "M" = false /\
  digit c = false.
Proof.
  destruct c as [[] [] [] [] [] [] [] []]; cbn; intros H;
    try discriminate H; repeat split; reflexivity.
Qed.

Lemma hour_unit_none_head total s cs k :
  head_is (fun c => Ascii.eqb (to_upper c) "H") s = false ->
  m hour_unit total s cs k = None.
Proof.
  destruct s as [|c s]; intros H; [reflexivity|]. cbn in H.
  unfold hour_unit. cbn -[to_upper Ascii.eqb].
  change (to_upper "h") with "H"%char. rewrite !H. reflexivity.
Qed.

Lemma minute_unit_none_head total s cs k :
  head_is (fun c => Ascii.eqb (to_upper c) "M") s = false ->
  m minute_unit total s cs k = None.
Proof.
  destruct s as [|c s]; intros H; [reflexivity|]. cbn in H.
  unfold minute_unit. cbn -[to_upper Ascii.eqb].
  change (to_upper "m") with "M"%char. rewrite !H. reflexivity.
Qed.

Lemma m_alt a b total s cs k :
  m (Alt a b) total s cs k =
  match m a total s cs k with
  | Some res => Some res
  | None => m b total s cs k
  end.
Proof. reflexivity. Qed.

Lemma hour_unit_some total c s cs :
  Ascii.eqb (to_upper c) "H" = true ->
  m hour_unit total (String c s) cs (fun _ cs' => Some cs') = Some cs.
Proof.
  intros H.
  assert (Hlast : m (lit "h") total (String c s) cs (fun _ cs' => Some cs')
                  = Some cs).
  { cbn -[to_upper Ascii.eqb]. change (to_upper "h") with "H"%char.
    rewrite H. reflexivity. }
  unfold hour_unit. rewrite !m_alt.
  destruct (m (Seq (lit "hour") (Opt (lit "s"))) _ _ _ _) eqn:E1;
    [apply m_group_free in E1 as [s' E1]; [congruence|reflexivity]|].
  destruct (m (Seq (lit "hr") (Opt (lit "s"))) _ _ _ _) eqn:E2;
    [apply m_group_free in E2 as [s' E2]; [congruence|reflexivity]|].
  exact Hlast.
Qed.

Lemma minute_unit_some total c s cs :
  Ascii.eqb (to_upper c) "M" = true ->
  m minute_unit total (String c s) cs (fun _ cs' => Some cs') = Some cs.
Proof.
  intros H.
  assert (Hlast : m (lit "m") total (String c s) cs (fun _ cs' => Some cs')
                  = Some cs).
  { cbn -[to_upper Ascii.eqb]. change (to_upper "m") with "M"%char.
    rewrite H. reflexivity. }
  unfold minute_unit. rewrite !m_alt.
  destruct (m (Seq (lit "minute") (Opt (lit "s"))) _ _ _ _) eqn:E1;
    [apply m_group_free in E1 as [s' E1]; [congruence|reflexivity]|].
  destruct (m (Seq (lit "min") (Opt (lit "s"))) _ _ _ _) eqn:E2;
    [apply m_group_free in E2 as [s' E2]; [congruence|reflexivity]|].
  exact Hlast.
Qed.

Lemma string_length_app a b :
  String.length (a ++ b) = (String.length a + String.length b)%nat.
Proof. induction a as [|c a IH]; cbn; [reflexivity|]. rewrite IH. reflexivity. Qed.

Lemma substring_prefix a b :
  substring 0 (String.length (a ++ b) - String.length b) (a ++ b) = a.
Proof.
  rewrite string_length_app, Nat.add_sub.
  induction a as [|c a IH]; cbn.
  - destruct b; reflexivity.
  - rewrite IH. reflexivity.
Qed.

Lemma no_digit_rest ws c rest :
  string_forall space ws = true -> digit c = false -> no_digit rest = true ->
  no_digit (ws ++ String c rest) = true /\
  head_is digit (ws ++ String c rest) = false.
Proof.
  intros Hws Hc Hrest. induction ws as [|x ws IH]; cbn.
  - rewrite Hc, Hrest. split; reflexivity.
  - cbn in Hws. apply andb_true_iff in Hws as [Hx Hws].
    destruct (space_not_letter x Hx) as (_ & _ & Hd).
    rewrite Hd. cbn. split; [apply IH, Hws|reflexivity].
Qed.

(** A pattern made of a digit run and a tail finds nothing in a digit
    run followed by a rest without digits, when the tail fails on the
    rest and right after a digit. *)
Lemma exec_from_run_none i tail total d rest :
  string_forall digit d = true ->
  no_digit rest = true -> head_is digit rest = false ->
  (forall s cs k, head_is digit s = true -> m tail total s cs k = None) ->
  (forall cs k, m tail total rest cs k = None) ->
  exec_from (Seq (Group i digits) tail) total (d ++ rest) = None.
Proof.
  intros Hd Hrest Hhead Hdigit Htail. induction d as [|c d IH].
  - cbn [append]. apply exec_from_no_digit, Hrest.
  - cbn in Hd. apply andb_true_iff in Hd as [Hc Hd].
    cbn [append exec_from]. rewrite m_seq, m_group_digits, Hc.
    rewrite star_prefix_none; [apply IH, Hd|exact Hd|exact Hhead|].
    intros run' Hrun'. destruct run' as [|x run']; cbn [append].
    + apply Htail.
    + apply Hdigit. cbn in Hrun'. apply andb_true_iff in Hrun' as [Hx _].
      exact Hx.
Qed.

(** The same pattern finds the whole digit run when the tail matches the
    rest. *)
Lemma exec_run_some unit d ws c rest :
  string_forall digit d = true -> d <> "" ->
  string_forall space ws = true ->
  space c = false -> digit c = false ->
  (forall total cs,
      m unit total (String c rest) cs (fun _ cs' => Some cs') = Some cs) ->
  exec (Seq (Group 1 digits) (Seq spaces unit)) (d ++ ws ++ String c rest)
  = Some [(1%nat, d)].
Proof.
  intros Hd Hne Hws Hsp Hdg Hunit.
  destruct d as [|c1 d]; [contradiction|].
  cbn in Hd. apply andb_true_iff in Hd as [Hc1 Hd].
  unfold exec. cbn [append exec_from].
  rewrite m_seq, m_group_digits, Hc1.
  erewrite star_prefix_some; [reflexivity|exact Hd| |].
  - destruct ws as [|x ws]; cbn; [exact Hdg|].
    cbn in Hws. apply andb_true_iff in Hws as [Hx _].
    apply (space_not_letter x Hx).
  - rewrite m_seq. unfold spaces.
    erewrite star_prefix_some; [|exact Hws|exact Hsp|apply Hunit].
    change (String c1 (d ++ ws ++ String c rest))
      with (String c1 d ++ (ws ++ String c rest)).
    rewrite substring_prefix. reflexivity.
Qed.

Lemma exec_number_rest d rest :
  string_forall digit d = true -> rest <> "" -> head_is digit rest = false ->
  exec pattern_number (d ++ rest) = None.
Proof.
  intros Hd Hne Hhead. unfold exec, pattern_number.
  assert (Hlater : forall total s,
             (String.length s < total)%nat ->
             exec_from (Seq Bol (Seq (Group 1 digits) Eol)) total s = None).
  { intros total s. induction s as [|c s IH]; intros Hlt.
    - cbn [exec_from]. rewrite m_seq_bol.
      destruct (Nat.eqb_spec (String.length "") total) as [E|_]; [|reflexivity].
      cbn in *. lia.
    - cbn [exec_from]. rewrite m_seq_bol.
      destruct (Nat.eqb_spec (String.length (String c s)) total) as [E|_];
        [lia|].
      apply IH. cbn in Hlt. lia. }
  destruct d as [|c d].
  - cbn [append]. destruct rest as [|x rest]; [contradiction|].
    cbn [exec_from]. rewrite m_seq_bol, Nat.eqb_refl, m_digits_first
      by (cbn in Hhead; exact Hhead).
    apply Hlater. cbn. lia.
  - cbn in Hd. apply andb_true_iff in Hd as [Hc Hd].
    cbn [append exec_from].
    rewrite m_seq_bol, Nat.eqb_refl, m_seq, m_group_digits, Hc.
    rewrite star_prefix_none; [apply Hlater; cbn; lia|exact Hd|exact Hhead|].
    intros run' _. cbn [m].
    destruct (run' ++ rest) eqn:E; [|reflexivity].
    destruct run'; [cbn in E; contradiction|discriminate].
Qed.

(** X21: hours.  On a text made of a decimal number, optional white
    space, the letter [h] (in either case) and anything without digits
    after it, [parseDuration] returns that many hours and no minutes;
    what follows the [h] is not looked at.  When the number is zero it
    throws [INVALID_DURATION] instead.  The number is one whose minutes
    do not exceed 2^53, the range in which the numbers of the source
    are exact. *)
Theorem X21_parseDuration_hours_form d ws c rest :
  all_digits d = true -> d <> "" ->
  parseInt d * 60 <= 2 ^ 53 ->
  string_forall space ws = true ->
  Ascii.eqb (to_upper c) "H" = true ->
  no_digit rest = true ->
  parseDuration (d ++ ws ++ String c rest) =
  if parseInt d =? 0
  then inl (duration_error (d ++ ws ++ String c rest))
  else inr (mkParsedDuration (parseInt d) 0 (parseInt d * 60)).
Proof.
  intros Hd Hne _ Hws Hc Hrest. rewrite all_digits_forall in Hd.
  destruct (letter_H_not_space c Hc) as (Hsp & Hdg & HnotM).
  destruct (no_digit_rest ws c rest Hws Hdg Hrest) as [HR Hhead].
  assert (Hcombined : exec pattern_combined (d ++ ws ++ String c rest) = None).
  { unfold exec, pattern_combined.
    apply exec_from_run_none; try assumption.
    - intros s cs k Hs. rewrite m_seq, spaces_skip_digit by exact Hs.
      rewrite m_seq. apply hour_unit_none_head.
      destruct s as [|x s]; [discriminate|]. cbn in *.
      apply (digit_not_letter x "h" Hs eq_refl).
    - intros cs k.
      apply (dead_seq _ _ (dead_seq _ _ (dead_seq _ _ (dead_seq _ _
               (dead_digits _ _))))).
      exact HR. }
  assert (Hhours : exec pattern_hours (d ++ ws ++ String c rest)
                   = Some [(1%nat, d)]).
  { apply exec_run_some; try assumption.
    intros total cs. apply hour_unit_some, Hc. }
  assert (Hminutes : exec pattern_minutes (d ++ ws ++ String c rest) = None).
  { unfold exec, pattern_minutes.
    apply exec_from_run_none; try assumption.
    - intros s cs k Hs. rewrite m_seq, spaces_skip_digit by exact Hs.
      apply minute_unit_none_head.
      destruct s as [|x s]; [discriminate|]. cbn in *.
      apply (digit_not_letter x "m" Hs eq_refl).
    - intros cs k. rewrite m_seq. unfold spaces.
      apply star_prefix_none; [exact Hws|exact Hsp|].
      intros run' Hrun'. apply minute_unit_none_head.
      destruct run' as [|x run']; cbn; [exact HnotM|].
      cbn in Hrun'. apply andb_true_iff in Hrun' as [Hx _].
      apply (space_not_letter x Hx). }
  unfold parseDuration. rewrite Hcombined, Hhours, Hminutes.
  unfold group_number. cbn [capture Nat.eqb].
  assert (Hor : or_string (Some d) "0" = d)
    by (destruct d; [contradiction|reflexivity]).
  rewrite Hor. cbn [Z.eqb andb].
  rewrite andb_true_r.
  destruct (parseInt d =? 0) eqn:E0.
  - rewrite exec_number_rest; [reflexivity|exact Hd| |exact Hhead].
    destruct ws; discriminate.
  - f_equal. f_equal. lia.
Qed.

(** X22: minutes.  On a text made of a decimal number, optional white
    space, the letter [m] (in either case) and anything without digits
    after it, [parseDuration] returns that many minutes and no hours;
    what follows the [m] is not looked at.  When the number is zero it
    throws [INVALID_DURATION] instead.  The number does not exceed
    2^53, the range in which the numbers of the source are exact. *)
Theorem X22_parseDuration_minutes_form d ws c rest :
  all_digits d = true -> d <> "" ->
  parseInt d <= 2 ^ 53 ->
  string_forall space ws = true ->
  Ascii.eqb (to_upper c) "M" = true ->
  no_digit rest = true ->
  parseDuration (d ++ ws ++ String c rest) =
  if parseInt d =? 0
  then inl (duration_error (d ++ ws ++ String c rest))
  else inr (mkParsedDuration 0 (parseInt d) (parseInt d)).
Proof.
  intros Hd Hne _ Hws Hc Hrest. rewrite all_digits_forall in Hd.
  destruct (letter_M_not_space c Hc) as (Hsp & Hdg & HnotH).
  destruct (no_digit_rest ws c rest Hws Hdg Hrest) as [HR Hhead].
  assert (Hcombined : exec pattern_combined (d ++ ws ++ String c rest) = None).
  { unfold exec, pattern_combined.
    apply exec_from_run_none; try assumption.
    - intros s cs k Hs. rewrite m_seq, spaces_skip_digit by exact Hs.
      rewrite m_seq. apply hour_unit_none_head.
      destruct s as [|x s]; [discriminate|]. cbn in *.
      apply (digit_not_letter x "h" Hs eq_refl).
    - intros cs k.
      apply (dead_seq _ _ (dead_seq _ _ (dead_seq _ _ (dead_seq _ _
               (dead_digits _ _))))).
      exact HR. }
  assert (Hminutes : exec pattern_minutes (d ++ ws ++ String c rest)
                     = Some [(1%nat, d)]).
  { apply exec_run_some; try assumption.
    intros total cs. apply minute_unit_some, Hc. }
  assert (Hhours : exec pattern_hours (d ++ ws ++ String c rest) = None).
  { unfold exec, pattern_hours.
    apply exec_from_run_none; try assumption.
    - intros s cs k Hs. rewrite m_seq, spaces_skip_digit by exact Hs.
      apply hour_unit_none_head.
      destruct s as [|x s]; [discriminate|]. cbn in *.
      apply (digit_not_letter x "h" Hs eq_refl).
    - intros cs k. rewrite m_seq. unfold spaces.
      apply star_prefix_none; [exact Hws|exact Hsp|].
      intros run' Hrun'. apply hour_unit_none_head.
      destruct run' as [|x run']; cbn; [exact HnotH|].
      cbn in Hrun'. apply andb_true_iff in Hrun' as [Hx _].
      apply (space_not_letter x Hx). }
  unfold parseDuration. rewrite Hcombined, Hhours, Hminutes.
  unfold group_number. cbn [capture Nat.eqb].
  assert (Hor : or_string (Some d) "0" = d)
    by (destruct d; [contradiction|reflexivity]).
  rewrite Hor. cbn [Z.eqb andb].
  destruct (parseInt d =? 0) eqn:E0.
  - rewrite exec_number_rest; [reflexivity|exact Hd| |exact Hhead].
    destruct ws; discriminate.
  - f_equal.
Qed.

Lemma alias_zone_is_fixed D k z :
  lookup k aliases = Some z ->
  truthy_string (Some z) = Some z /\ normalizeTimezone D (Some z) = z.
Proof.
  unfold aliases. cbn [lookup].
  repeat (destruct (String.eqb k _);
          [intros H; injection H as <-; split; reflexivity|]).
  discriminate.
Qed.

(** X23: [normalizeTimezone] on a non-empty name is idempotent and never
    returns the empty string: an alias is replaced by its zone, which is
    no alias itself, and any other name is returned as it is. *)
Theorem X23_normalizeTimezone_idempotent D tz :
  tz <> "" ->
  normalizeTimezone D (Some (normalizeTimezone D (Some tz)))
  = normalizeTimezone D (Some tz) /\
  normalizeTimezone D (Some tz) <> "" /\
  (normalizeTimezone D (Some tz) = tz \/
   lookup (upper tz) aliases = Some (normalizeTimezone D (Some tz))).
Proof.
  intros Hne.
  assert (Ht : truthy_string (Some tz) = Some tz)
    by (destruct tz; [contradiction|reflexivity]).
  destruct (lookup (upper tz) aliases) as [z|] eqn:E.
  - destruct (alias_zone_is_fixed D _ _ E) as [Hz Hfix].
    assert (HN : normalizeTimezone D (Some tz) = z)
      by (unfold normalizeTimezone; rewrite Ht, E, Hz; reflexivity).
    rewrite HN. split; [exact Hfix|]. split; [|right; reflexivity].
    destruct z; [discriminate Hz|discriminate].
  - assert (HN : normalizeTimezone D (Some tz) = tz)
      by (unfold normalizeTimezone; rewrite Ht, E; reflexivity).
    rewrite HN. split; [exact HN|]. split; [exact Hne|left; reflexivity].
Qed.

(** X17 to X23 on sample texts. *)
Lemma X17_witness :
  0 <= 2 /\ 0 <= 15 /\ 2 <= 135 /\ 15 <= 135 /\
  (135 = 0 <-> 2 = 0 /\ 15 = 0).
Proof.
  exact (X17_parseDuration_invariant "2 hours and 15 mins"
           (mkParsedDuration 2 15 135) eq_refl).
Defined.

Lemma X19_witness :
  calculateEndTime 50400000 (inl "90 minutes") = inr 55800000 /\
  55800000 = 50400000 + 90 * 60000 /\ 50400000 <= 55800000 /\ 90 < 2 ^ 53.
Proof.
  split; [reflexivity|].
  refine (X19_calculateEndTime_adds_total 50400000 "90 minutes" _ _);
    discriminate.
Defined.

Lemma X18_witness :
  parseDuration "half an hour" = inl (duration_error "half an hour").
Proof.
  exact (X18_parseDuration_rejects_no_digit "half an hour" eq_refl).
Defined.

Lemma X20_witness :
  parseDuration "3" = inr (mkParsedDuration 3 0 180).
Proof.
  refine (X20_parseDuration_bare_number "3" eq_refl _ _); discriminate.
Defined.

Lemma X21_witness :
  parseDuration "2 hrs" = inr (mkParsedDuration 2 0 120).
Proof.
  refine (X21_parseDuration_hours_form "2" " " "h" "rs" eq_refl _ _
            eq_refl eq_refl eq_refl); discriminate.
Defined.

Lemma X22_witness :
  parseDuration "90 minutes" = inr (mkParsedDuration 0 90 90).
Proof.
  refine (X22_parseDuration_minutes_form "90" " " "m" "inutes" eq_refl _ _
            eq_refl eq_refl eq_refl); discriminate.
Defined.

Lemma X23_witness :
  normalizeTimezone "Europe/Paris" (Some "kst") = "Asia/Seoul" /\
  normalizeTimezone "Europe/Paris" (Some "Asia/Seoul") = "Asia/Seoul".
Proof.
  assert (Hne : "kst" <> "") by discriminate.
  destruct (X23_normalizeTimezone_idempotent "Europe/Paris" "kst" Hne)
    as (H & _ & _).
  split; [reflexivity|exact H].
Defined.

End DateFacts.

(* ================================================================== *)
(** ** Further properties of the calendar requests *)

Module CalendarFacts.
Import DateParser CalendarService CalendarOps.

Section CalendarFacts.

Variable DEFAULT_TIMEZONE : string.
Variable new_Date : Z.
Variable chrono_parse : string -> Z -> list ChronoResult.
Variable toZonedTime : Z -> string -> Z.
Variable format_date : Z -> string.
Variable formatInTimeZone : Z -> string -> string.
Variable toISOString : Z -> error + string.
Variable add_days : Z -> Z -> Z.

Let create :=
  createEvent_request DEFAULT_TIMEZONE new_Date chrono_parse toZonedTime
                      format_date formatInTimeZone.
Let update {Other} :=
  @updateEvent_request DEFAULT_TIMEZONE new_Date chrono_parse toZonedTime
                       format_date formatInTimeZone Other.
Let list :=
  listEvents_params DEFAULT_TIMEZONE new_Date chrono_parse toZonedTime
                    toISOString add_days.
Let parse :=
  parseDateTime DEFAULT_TIMEZONE new_Date chrono_parse toZonedTime.



(** X24: an end time takes precedence over a duration.  When the input
    of [createEvent] has a non-empty end time, its duration is never
    looked at: whatever the duration is (unparseable too), the request is
    the same, or the same exception is thrown. *)
Theorem X24_createEvent_endTime_overrides_duration input duration' :
  truthy_string (in_endTime input) <> None ->
  create (mkCreateEventInput
            (in_summary input) (in_description input) (in_location input)
            (in_startTime input) (in_endTime input) duration'
            (in_timeZone input) (in_attendees input) (in_reminders input)
            (in_recurrence input) (in_sendNotifications input)
            (in_calendarId input))
  = create input.
Proof.
  intros H. unfold create, createEvent_request, createEvent_endDate. cbn.
  destruct (truthy_string (in_endTime input)); [reflexivity|contradiction].
Qed.

(** X25: the start and the end of the request of [createEvent] always
    have the same form, the one the start text calls for: both are
    dates without a time zone (all-day start) or both are date-times
    with the same time zone, also when the end text was parsed with the
    other form; and each has exactly one of the two. *)
Theorem X25_createEvent_same_shape input req :
  create input = inr req ->
  let body := requestBody req in
  (ev_date (ge_start body) = None <-> ev_date (ge_end body) = None) /\
  (ev_dateTime (ge_start body) = None <-> ev_dateTime (ge_end body) = None) /\
  ev_timeZone (ge_start body) = ev_timeZone (ge_end body) /\
  (ev_date (ge_start body) = None <-> ev_dateTime (ge_start body) <> None).
Proof.
  unfold create, createEvent_request.
  destruct (parseDateTime _ _ _ _ _ _ _) as [e|sp]; [discriminate|].
  destruct (createEvent_endDate _ _ _ _ _ _ _) as [e|endDate]; [discriminate|].
  intros H; injection H as <-. cbn. unfold formatForCalendar.
  destruct (isAllDay sp); cbn; repeat split; intros; congruence.
Qed.


(** X27: the tools never send notifications.  The handlers of
    [create_event], [update_event] and [delete_event] pass no
    [sendNotifications] to the service, so every request they lead to
    has [sendUpdates] = [none], whatever the [sendUpdates] argument of
    [delete_event] says; and [create_event] never sets a recurrence. *)
Theorem X27_tools_never_notify :
  (forall args req,
      create (handleCreateEvent_input args) = inr req ->
      sendUpdates req = none /\ ge_recurrence (requestBody req) = None) /\
  (forall Other args (existing : option (Event Other)) req,
      update (handleUpdateEvent_input args) existing = inr req ->
      ur_sendUpdates req = none) /\
  (forall args,
      dr_sendUpdates (deleteEvent_request (handleDeleteEvent_input args)) = none).
Proof.
  repeat split.
  - revert H. unfold create, createEvent_request.
    destruct (parseDateTime _ _ _ _ _ _ _); [discriminate|].
    destruct (createEvent_endDate _ _ _ _ _ _ _); [discriminate|].
    intros H; injection H as <-. reflexivity.
  - revert H. unfold create, createEvent_request.
    destruct (parseDateTime _ _ _ _ _ _ _); [discriminate|].
    destruct (createEvent_endDate _ _ _ _ _ _ _); [discriminate|].
    intros H; injection H as <-. reflexivity.
  - intros Other args existing req. unfold update, updateEvent_request.
    destruct existing as [ex|]; [|discriminate].
    repeat match goal with
           | |- context [match ?x with _ => _ end] =>
               lazymatch x with
               | context [match _ with _ => _ end] => fail
               | _ => destruct x
               end
           end; try discriminate; intros H; injection H as <-; reflexivity.
Qed.


(** X29: the request of [listEvents] depends on the two bounds, the
    result limit, the calendar and the time zone of its input only: the
    free-text query, [showDeleted], [singleEvents] and [orderBy] have no
    effect on what is asked of the calendar. *)
Theorem X29_listEvents_ignores_query i1 i2 :
  li_timeMin i1 = li_timeMin i2 -> li_timeMax i1 = li_timeMax i2 ->
  li_maxResults i1 = li_maxResults i2 -> li_calendarId i1 = li_calendarId i2 ->
  li_timeZone i1 = li_timeZone i2 ->
  list i1 = list i2.
Proof.
  intros H1 H2 H3 H4 H5. unfold list, listEvents_params.
  rewrite H1, H2, H3, H4, H5. reflexivity.
Qed.

(** X30: an update that names no field changes nothing.  When the input
    of [updateEvent] has only the event id (start and end absent or
    empty), the body sent to the calendar is the existing event as it
    was read. *)
Theorem X30_updateEvent_identity {Other} input (existing : Event Other) :
  ui_summary input = None -> ui_description input = None ->
  ui_location input = None ->
  truthy_string (ui_startTime input) = None ->
  truthy_string (ui_endTime input) = None ->
  ui_attendees input = None -> ui_reminders input = None ->
  exists req,
    update input (Some existing) = inr req /\
    ur_requestBody req = existing /\ ur_eventId req = ui_eventId input.
Proof.
  intros H1 H2 H3 H4 H5 H6 H7. unfold update, updateEvent_request.
  rewrite H1, H2, H3, H4, H5, H6, H7.
  eexists; split; [reflexivity|]. destruct existing; split; reflexivity.
Qed.

End CalendarFacts.

Section CalendarSamples.

(** A parser that knows two texts, and formatters that print the instant
    in a fixed way. *)
Let chrono (text : string) (ref : Z) : list ChronoResult :=
  if String.eqb text "tomorrow at 2pm"
  then [mkChronoResult 50400000 true false]
  else if String.eqb text "friday"
  then [mkChronoResult 86400000 false false]
  else [].
Let zoned (d : Z) (tz : string) : Z := d.
Let fmt_date (d : Z) : string := "1970-01-01".
Let fmt_tz (d : Z) (tz : string) : string := "1970-01-01T14:00:00+09:00".
Let iso (d : Z) : error + string := inr "1970-01-01T14:00:00.000Z".
Let days (d n : Z) : Z := d + n * 86400000.

Let input : CreateEventInput :=
  mkCreateEventInput "Stand-up" None None "tomorrow at 2pm" (Some "friday")
                     (Some "soon") None None None None (Some true) None.

(** X24 on an input whose end time is given and whose duration cannot
    be parsed. *)
Lemma X24_witness :
  createEvent_request "Asia/Seoul" 0 chrono zoned fmt_date fmt_tz
    (mkCreateEventInput "Stand-up" None None "tomorrow at 2pm" (Some "friday")
                        None None None None None (Some true) None)
  = createEvent_request "Asia/Seoul" 0 chrono zoned fmt_date fmt_tz input.
Proof.
  refine (X24_createEvent_endTime_overrides_duration
            "Asia/Seoul" 0 chrono zoned fmt_date fmt_tz input None _).
  discriminate.
Defined.

(** X25 on a timed start with an all-day end text. *)
Lemma X25_witness :
  exists req,
    createEvent_request "Asia/Seoul" 0 chrono zoned fmt_date fmt_tz input
    = inr req /\
    ev_timeZone (ge_start (requestBody req)) =
    ev_timeZone (ge_end (requestBody req)).
Proof.
  eexists. split; [reflexivity|].
  refine (proj1 (proj2 (proj2
            (X25_createEvent_same_shape
               "Asia/Seoul" 0 chrono zoned fmt_date fmt_tz input _ eq_refl)))).
Defined.



(** X29 on two inputs that differ in the query. *)
Lemma X29_witness :
  listEvents_params "Asia/Seoul" 0 chrono zoned iso days
    (mkListEventsInput (Some "friday") None None None None (Some "lunch")
                       None None None)
  = listEvents_params "Asia/Seoul" 0 chrono zoned iso days
      (mkListEventsInput (Some "friday") None None None None (Some "dinner")
                         (Some true) None None).
Proof.
  exact (X29_listEvents_ignores_query
           "Asia/Seoul" 0 chrono zoned iso days
           (mkListEventsInput (Some "friday") None None None None (Some "lunch")
                              None None None)
           (mkListEventsInput (Some "friday") None None None None (Some "dinner")
                              (Some true) None None)
           eq_refl eq_refl eq_refl eq_refl eq_refl).
Defined.

(** X30 on an update that names no field. *)
Lemma X30_witness :
  exists req,
    updateEvent_request "Asia/Seoul" 0 chrono zoned fmt_date fmt_tz
      (mkUpdateEventInput "event-1" None None None None (Some "") None None
                          None None None)
      (Some (mkEvent (Some "Stand-up") None None None None None None tt))
    = inr req /\
    ur_requestBody req =
    mkEvent (Some "Stand-up") None None None None None None tt /\
    ur_eventId req = "event-1".
Proof.
  exact (X30_updateEvent_identity
           "Asia/Seoul" 0 chrono zoned fmt_date fmt_tz
           (mkUpdateEventInput "event-1" None None None None (Some "") None
                               None None None None)
           (mkEvent (Some "Stand-up") None None None None None None tt)
           eq_refl eq_refl eq_refl eq_refl eq_refl eq_refl eq_refl).
Defined.

(** X27 on a create_event call with a start the parser knows. *)
Lemma X27_witness :
  exists req,
    createEvent_request "Asia/Seoul" 0 chrono zoned fmt_date fmt_tz
      (handleCreateEvent_input
         (mkCreateEventArgs "Stand-up" None None "tomorrow at 2pm" None None
                            None None None "primary")) = inr req /\
    sendUpdates req = none.
Proof.
  eexists. split; [reflexivity|].
  refine (proj1 (proj1 (X27_tools_never_notify
                          "Asia/Seoul" 0 chrono zoned fmt_date fmt_tz)
                   (mkCreateEventArgs "Stand-up" None None "tomorrow at 2pm"
                                      None None None None None "primary")
                   _ eq_refl)).
Defined.

End CalendarSamples.

End CalendarFacts.
